(** * cinema: a shallow embedding of the ffmpeg command builder

    The Go package [cinema] (cinema.go) wraps one input video together with
    the edits requested for it ([Video]) and a list of rendered clips to be
    concatenated ([Clip]).  Both compile their state into an argument vector
    for ffmpeg.

    Conventions of the embedding:
    - Go's [int] and [time.Duration] (both 64 bit) are [Z]; the only
      arithmetic the package performs on them is written with its
      wrap-around ([sub64]) or with Go's truncating division ([Z.quot],
      [Z.rem]).
    - Go strings are [string]; slices are [list].
    - A Go [error] is the [string] returned by its [Error()] method.
    - Calls that leave the process (exec.LookPath, os.Stat, running ffprobe
      and ffmpeg, creating, writing and removing a file) are answered by an
      environment record [Env]; the files the package writes and removes
      live in a finite map from paths to contents. *)

From Stdlib Require Import ZArith Ascii String DecimalString Bool Lia.
From stdpp Require Import base tactics option list strings gmap.

#[local] Open Scope Z_scope.

(** ** Library functions the package calls *)

(** Results of fallible calls: Go's [(T, error)] pairs. *)
Definition result (A : Type) : Type := (string + A)%type.

(** [try x <- e onerr h ;; k]: run [e]; on error return the error built by
    [h] from the underlying message, as in
    [if err != nil { return nil, errors.New(prefix + err.Error()) }]. *)
Notation "'try' x '<-' e 'onerr' h ';;' k" :=
  (match e with
   | inl err => inl (h err)
   | inr x => k
   end)
  (at level 10, x name, e at level 99, h at level 9, k at level 200,
   only parsing).

Module strconv.

(** strconv.Itoa: decimal digits, a leading minus sign for negatives. *)
Definition Itoa (i : Z) : string := NilZero.string_of_int (Z.to_int i).

End strconv.

Module strings.

(** strings.Join(elems, sep). *)
Definition Join (elems : list string) (sep : string) : string :=
  String.concat sep elems.

End strings.

(** 64-bit two's complement wrap-around of Go's [int64] arithmetic. *)
Definition wrap64 (z : Z) : Z := (z + 2 ^ 63) mod 2 ^ 64 - 2 ^ 63.
Definition sub64 (a b : Z) : Z := wrap64 (a - b).
Definition int64 (z : Z) : Prop := - 2 ^ 63 <= z < 2 ^ 63.

(** ** The Video type and its edit operations *)

Record Video : Type := mkVideo {
  filepath : string;
  width : Z;
  height : Z;
  fps : Z;
  bitrate : Z;
  start : Z;          (* time.Duration, nanoseconds *)
  end_ : Z;           (* field [end] *)
  duration : Z;
  filters : list string;
  additionalArgs : list string
}.

Definition clampToDuration (v : Video) (t : Z) : Z :=
  let t := if t <? 0 then 0 else t in
  let t := if t >? duration v then duration v else t in
  t.

Definition SetStart (v : Video) (start' : Z) : Video :=
  let s := clampToDuration v start' in
  let e := if s >? end_ v then s else end_ v in
  mkVideo (filepath v) (width v) (height v) (fps v) (bitrate v)
          s e (duration v) (filters v) (additionalArgs v).

Definition SetEnd (v : Video) (end' : Z) : Video :=
  let e := clampToDuration v end' in
  let s := if e <? start v then e else start v in
  mkVideo (filepath v) (width v) (height v) (fps v) (bitrate v)
          s e (duration v) (filters v) (additionalArgs v).

Definition Trim (v : Video) (start' end' : Z) : Video :=
  if start' <=? end' then SetEnd (SetStart v start') end' else v.

Definition SetFPS (v : Video) (fps' : Z) : Video :=
  mkVideo (filepath v) (width v) (height v) fps' (bitrate v)
          (start v) (end_ v) (duration v) (filters v) (additionalArgs v).

Definition SetBitrate (v : Video) (bitrate' : Z) : Video :=
  mkVideo (filepath v) (width v) (height v) (fps v) bitrate'
          (start v) (end_ v) (duration v) (filters v) (additionalArgs v).

(** fmt.Sprintf("scale=%d:%d", width, height) *)
Definition scaleFilter (w h : Z) : string :=
  "scale=" +:+ strconv.Itoa w +:+ ":" +:+ strconv.Itoa h.

(** fmt.Sprintf("crop=%d:%d:%d:%d", width, height, x, y) *)
Definition cropFilter (x y w h : Z) : string :=
  "crop=" +:+ strconv.Itoa w +:+ ":" +:+ strconv.Itoa h +:+ ":"
          +:+ strconv.Itoa x +:+ ":" +:+ strconv.Itoa y.

Definition SetSize (v : Video) (w h : Z) : Video :=
  mkVideo (filepath v) w h (fps v) (bitrate v)
          (start v) (end_ v) (duration v)
          (filters v ++ [scaleFilter w h]) (additionalArgs v).

Definition Crop (v : Video) (x y w h : Z) : Video :=
  mkVideo (filepath v) w h (fps v) (bitrate v)
          (start v) (end_ v) (duration v)
          (filters v ++ [cropFilter x y w h]) (additionalArgs v).

Definition Mute (v : Video) : Video :=
  mkVideo (filepath v) (width v) (height v) (fps v) (bitrate v)
          (start v) (end_ v) (duration v)
          (filters v) (additionalArgs v ++ ["-an"]).

(** One call of the editing interface, with its arguments. *)
Inductive edit : Type :=
| ESetStart (t : Z)
| ESetEnd (t : Z)
| ETrim (s e : Z)
| ESetFPS (f : Z)
| ESetBitrate (b : Z)
| ESetSize (w h : Z)
| ECrop (x y w h : Z)
| EMute.

Definition apply_edit (v : Video) (e : edit) : Video :=
  match e with
  | ESetStart t => SetStart v t
  | ESetEnd t => SetEnd v t
  | ETrim s e => Trim v s e
  | ESetFPS f => SetFPS v f
  | ESetBitrate b => SetBitrate v b
  | ESetSize w h => SetSize v w h
  | ECrop x y w h => Crop v x y w h
  | EMute => Mute v
  end.

(** The states a Video goes through: one entry after each call. *)
Fixpoint states_after (v : Video) (es : list edit) : list Video :=
  match es with
  | [] => []
  | e :: es' => let v' := apply_edit v e in v' :: states_after v' es'
  end.

(** The Video after a whole sequence of calls. *)
Definition after_edits (v : Video) (es : list edit) : Video :=
  fold_left apply_edit es v.

(** The filter fragment a call appends, if any. *)
Definition edit_filters (e : edit) : list string :=
  match e with
  | ESetSize w h => [scaleFilter w h]
  | ECrop x y w h => [cropFilter x y w h]
  | _ => []
  end.

(** The additional argument a call appends, if any. *)
Definition edit_args (e : edit) : list string :=
  match e with
  | EMute => ["-an"]
  | _ => []
  end.

(** The state invariant on the trim points. *)
Definition trim_ok (v : Video) : Prop :=
  0 <= start v /\ start v <= end_ v /\ end_ v <= duration v.

(** ** Load: building a Video from the report of ffprobe *)

(** One entry of [streams] in the report.  [Rotation] is the optional tag
    [tags.rotate] (a pointer in the source): [None] when the tag is absent,
    otherwise the outcome of [json.Number.Int64()] on it. *)
Record stream : Type := mkStream {
  Width : Z;
  Height : Z;
  Rotation : option (result Z)
}.

(** The decoded report.  [DurationSec] stands for the [format.duration]
    number: [inl] is the error of [json.Number.Float64()], [inr d] is the
    [time.Duration] that line 107 computes from the parsed seconds,
    [time.Duration(secs*float64(time.Second) + 0.5)]; the floating-point
    conversion itself is outside the embedding.  [Bitrate] is the outcome of
    [json.Number.Int64()] on [format.bit_rate]. *)
Record description : Type := mkDescription {
  Streams : list stream;
  DurationSec : result Z;
  Bitrate : result Z
}.

(** The files the package creates and removes: path to contents. *)
Abbreviation FS := (gmap string string).

(** What the outside world answers. *)
Record Env : Type := mkEnv {
  (* exec.LookPath(file): the resolved path, or an error *)
  LookPath : string -> result string;
  (* os.Stat(path): only the error is used *)
  Stat : string -> option string;
  (* exec.Command(argv...).Output(): standard output, or an error *)
  Output : list string -> result string;
  (* json.Unmarshal(out, &desc) *)
  Unmarshal : string -> result description;
  (* os.Create(path): [Some err] when the file cannot be created *)
  CreateErr : string -> option string;
  (* a write of [data] to the open file at [path]: [Some err] on failure *)
  WriteErr : string -> string -> option string;
  (* os.Remove(path): [Some err] when the system refuses to remove the
     file *)
  RemoveErr : string -> option string;
  (* exec.Command(argv...).Run(): the process may change files; [Some err]
     when it cannot be started or exits with a non-zero status *)
  Run : list string -> FS -> FS * option string
}.

(** The loop of lines 109-115: index of the first stream with non-zero
    width and height, 0 when there is none. *)
Fixpoint dsIndex_from (index : nat) (streams : list stream) : nat :=
  match streams with
  | [] => 0%nat
  | v :: rest =>
      if negb (Width v =? 0) && negb (Height v =? 0) then index
      else dsIndex_from (S index) rest
  end.

Definition dsIndex (streams : list stream) : nat := dsIndex_from 0 streams.

(** Lines 117-132: the dimensions of the selected stream, swapped when the
    rotation is an odd multiple of a quarter turn.  Go's [/] and [%] on
    integers truncate towards zero: [Z.quot] and [Z.rem]. *)
Definition rotated (s : stream) : result (Z * Z) :=
  let width := Width s in
  let height := Height s in
  match Rotation s with
  | None => inr (width, height)
  | Some r =>
      try rotation <- r
        onerr (fun e => "cinema.Load: ffprobe returned invalid rotation: " +:+ e) ;;
      let flipCount := Z.quot rotation 90 in
      if negb (Z.rem flipCount 2 =? 0) then inr (height, width)
      else inr (width, height)
  end.

Definition ffprobe_not_found : string :=
  "cinema.Load: ffprobe was not found in your PATH " +:+
  "environment variable, make sure to install ffmpeg " +:+
  "(https://ffmpeg.org/) and add ffmpeg, ffplay and ffprobe to your " +:+
  "PATH".

(** The arguments ffprobe is run with (lines 56-63). *)
Definition ffprobe_argv (path : string) : list string :=
  ["ffprobe"; "-v"; "quiet"; "-print_format"; "json";
   "-show_format"; "-show_streams"; path].

Definition Load (env : Env) (path : string) : result Video :=
  try _p <- LookPath env "ffprobe" onerr (fun _ => ffprobe_not_found) ;;
  match Stat env path with
  | Some err => inl ("cinema.Load: unable to load file: " +:+ err)
  | None =>
  try out <- Output env (ffprobe_argv path)
    onerr (fun e => "cinema.Load: ffprobe failed: " +:+ e) ;;
  try desc <- Unmarshal env out
    onerr (fun e => "cinema.Load: unable to parse JSON output " +:+
                    "from ffprobe: " +:+ e) ;;
  match Streams desc with
  | [] => inl ("cinema.Load: ffprobe does not contain stream " +:+
               "data, make sure the file " +:+ path +:+
               " contains a valid video.")
  | s0 :: _ =>
  try duration <- DurationSec desc
    onerr (fun e => "cinema.Load: ffprobe returned invalid duration: " +:+ e) ;;
  try bitrate <- Bitrate desc
    onerr (fun e => "cinema.Load: ffprobe returned invalid duration: " +:+ e) ;;
  let selected := nth (dsIndex (Streams desc)) (Streams desc) s0 in
  try wh <- rotated selected onerr (fun e => e) ;;
  inr {| filepath := path;
         width := fst wh;
         height := snd wh;
         fps := 30;
         bitrate := bitrate;
         start := 0;
         end_ := duration;
         duration := duration;
         filters := [];
         additionalArgs := [] |}
  end
  end.

(** ** Video.CommandLine *)

Section VideoCommandLine.

(** [FormatSeconds d] is
    [strconv.FormatFloat(d.Seconds(), 'f', -1, 64)]: the shortest decimal
    that reads back as the float64 number of seconds of the duration [d].
    Floating point is outside the embedding, so the function is a
    parameter. *)
Variable FormatSeconds : Z -> string.

Definition filterChain (v : Video) : string :=
  let filters0 :=
    if (0 <? length (filters v))%nat
    then strings.Join (filters v) "," +:+ ","
    else "" in
  filters0 +:+ "setsar=1,fps=fps=" +:+ strconv.Itoa (fps v).

Definition CommandLine (v : Video) (output : string) : list string :=
  let filters := filterChain v in
  let additionalArgs := additionalArgs v in
  let cmdline :=
    ["ffmpeg";
     "-y";
     "-i"; filepath v;
     "-ss"; FormatSeconds (start v);
     "-t"; FormatSeconds (sub64 (end_ v) (start v));
     "-vb"; strconv.Itoa (bitrate v)] in
  let cmdline := cmdline ++ additionalArgs in
  let cmdline := cmdline ++ ["-vf"; filters; "-strict"; "-2"] in
  let cmdline := cmdline ++ [output] in
  cmdline.

End VideoCommandLine.

(** ** Go's path/filepath on Unix *)

(** The package imports [path/filepath] from Go's standard library for
    [Dir], [Base] and [Join].  The functions below follow the library's
    Unix behaviour: the separator is the slash, there are no volume names.
    [Clean] is written over the slash-separated elements of the path, with
    the library's output buffer kept as a stack of elements. *)
Module path_filepath.

Definition Separator : ascii := "/"%char.

Definition IsPathSeparator (c : ascii) : bool := Ascii.eqb c Separator.

(** The elements between separators, as strings.Split(path, "/"). *)
Fixpoint split (s : string) : list string :=
  match s with
  | EmptyString => [""]
  | String c s' =>
      if IsPathSeparator c then "" :: split s'
      else match split s' with
           | e :: rest => String c e :: rest
           | [] => [String c ""]
           end
  end.

(** The element loop of Clean.  [out] holds the elements written so far,
    the last one first.  An empty element and [.] are skipped; [..] removes
    the last real element when there is one; otherwise it is kept on a
    path that is not rooted and dropped on a rooted one. *)
Fixpoint cleanElems (rooted : bool) (out : list string) (elems : list string)
  : list string :=
  match elems with
  | [] => out
  | e :: rest =>
      if String.eqb e "" || String.eqb e "." then cleanElems rooted out rest
      else if String.eqb e ".." then
        match out with
        | top :: below =>
            if String.eqb top ".." then cleanElems rooted (e :: out) rest
            else cleanElems rooted below rest
        | [] =>
            if rooted then cleanElems rooted out rest
            else cleanElems rooted (e :: out) rest
        end
      else cleanElems rooted (e :: out) rest
  end.

(** The cleaned path written back from its elements (first one first). *)
Definition cleanOut (rooted : bool) (elems : list string) : string :=
  if rooted then "/" +:+ String.concat "/" elems
  else match elems with
       | [] => "."
       | _ => String.concat "/" elems
       end.

Definition isRooted (path : string) : bool :=
  match path with
  | EmptyString => false
  | String c _ => IsPathSeparator c
  end.

Definition Clean (path : string) : string :=
  match path with
  | EmptyString => "."
  | _ =>
      let rooted := isRooted path in
      cleanOut rooted (rev (cleanElems rooted [] (split path)))
  end.

(** Join: leading empty elements are ignored, the rest is joined with the
    separator and cleaned; the result is empty when every element is. *)
Fixpoint Join (elem : list string) : string :=
  match elem with
  | [] => ""
  | e :: rest =>
      if String.eqb e "" then Join rest
      else Clean (strings.Join elem "/")
  end.

(** [path[:i+1]] where [i] is the index of the last separator of [path],
    -1 when it has none. *)
Fixpoint throughLastSeparator (path : string) : string :=
  match path with
  | EmptyString => ""
  | String c s' =>
      let r := throughLastSeparator s' in
      if IsPathSeparator c || negb (String.eqb r "") then String c r
      else ""
  end.

Definition Dir (path : string) : string :=
  Clean (throughLastSeparator path).

(** [path] without its trailing separators. *)
Fixpoint stripTrailingSeparators (path : string) : string :=
  match path with
  | EmptyString => ""
  | String c s' =>
      let r := stripTrailingSeparators s' in
      if String.eqb r "" && IsPathSeparator c then "" else String c r
  end.

(** [path[i+1:]] where [i] is the index of the last separator of [path],
    the whole of [path] when it has none. *)
Fixpoint afterLastSeparator (path : string) : string :=
  match path with
  | EmptyString => ""
  | String c s' =>
      if String.eqb (throughLastSeparator path) "" then path
      else afterLastSeparator s'
  end.

Definition Base (path : string) : string :=
  match path with
  | EmptyString => "."
  | _ =>
      let path := afterLastSeparator (stripTrailingSeparators path) in
      if String.eqb path "" then "/" else path
  end.

End path_filepath.

(** ** The Clip type *)

Record Clip : Type := mkClip {
  videosPath : list string;
  concatListCache : string
}.

(** How a call ends: with a value, with a Go error, or in a run-time
    panic. *)
Inductive outcome (A : Type) : Type :=
| Ok (a : A)
| Err (msg : string)
| Panic (msg : string).
Arguments Ok {A} a.
Arguments Err {A} msg.
Arguments Panic {A} msg.

(** The panic of [s[0]] on an empty slice. *)
Definition index_out_of_range : string :=
  "runtime error: index out of range [0] with length 0".

(** The loop of lines 321-325: the first error of os.Stat, in list order. *)
Fixpoint statAll (env : Env) (videoPath : list string) : option string :=
  match videoPath with
  | [] => None
  | path :: rest =>
      match Stat env path with
      | Some err => Some err
      | None => statAll env rest
      end
  end.

Definition NewClip (env : Env) (videoPath : list string) : outcome Clip :=
  match LookPath env "ffprobe" with
  | inl _ => Err ffprobe_not_found
  | inr _ =>
      match statAll env videoPath with
      | Some err => Err ("cinema.Load: unable to load file: " +:+ err)
      | None =>
          match videoPath with
          | [] => Panic index_out_of_range
          | first :: _ =>
              let dir := path_filepath.Dir first in
              Ok {| videosPath := videoPath;
                    concatListCache := path_filepath.Join [dir; "concat.txt"] |}
          end
      end
  end.

Module ClipM.

(** Clip.CommandLine (lines 357-367). *)
Definition CommandLine (c : Clip) (output : string) : outcome (list string) :=
  let cmdline :=
    ["ffmpeg";
     "-y";
     "-f"; "concat";
     "-i"; concatListCache c;
     "-c"; "copy"] in
  match videosPath c with
  | [] => Panic index_out_of_range
  | first :: _ =>
      Ok (cmdline ++ ["-fflags"; "+genpts";
                      path_filepath.Join [path_filepath.Dir first; output]])
  end.

End ClipM.

Definition newline : string := String "010"%char EmptyString.

(** fmt.Sprintf("file '%s'\n", base) *)
Definition manifestLine (base : string) : string :=
  "file '" +:+ base +:+ "'" +:+ newline.

(** fmt.Fprintf(f, ...) on the file opened at [path]: the data is appended
    unless the write fails. *)
Definition Fprintf (env : Env) (fs : FS) (path data : string)
  : FS * option string :=
  match WriteErr env path data with
  | Some err => (fs, Some err)
  | None => (alter (fun content => content +:+ data) path fs, None)
  end.

(** The loop of lines 375-377; the result of every Fprintf is dropped. *)
Fixpoint writeLines (env : Env) (fs : FS) (path : string)
  (videos : list string) : FS :=
  match videos with
  | [] => fs
  | video :: rest =>
      let '(fs', _) :=
        Fprintf env fs path (manifestLine (path_filepath.Base video)) in
      writeLines env fs' path rest
  end.

Definition saveConcatenateList (env : Env) (fs : FS) (c : Clip)
  : FS * option string :=
  match CreateErr env (concatListCache c) with
  | Some err => (fs, Some err)
  | None =>
      (* os.Create truncates or creates the file *)
      let fs := <[concatListCache c := ""]> fs in
      (writeLines env fs (concatListCache c) (videosPath c), None)
  end.

(** deleteConcatenateList (lines 381-386).  os.Remove fails when the
    system refuses the removal, and the file stays; it also fails when
    there is no such file; otherwise the file is removed. *)
Definition deleteConcatenateList (env : Env) (fs : FS) (c : Clip)
  : FS * option string :=
  match RemoveErr env (concatListCache c) with
  | Some err => (fs, Some err)
  | None =>
      match fs !! concatListCache c with
      | Some _ => (delete (concatListCache c) fs, None)
      | None =>
          (fs, Some ("remove " +:+ concatListCache c +:+
                     ": no such file or directory"))
      end
  end.

(** ConcatenateWithStreams (lines 341-354).  The result of
    saveConcatenateList is dropped (line 342); the deferred
    deleteConcatenateList runs when the function returns and when it
    panics, and its result is dropped too. *)
Definition ConcatenateWithStreams (env : Env) (fs : FS) (c : Clip)
  (output : string) : FS * outcome unit :=
  let '(fs, _) := saveConcatenateList env fs c in
  let '(fs, res) :=
    match ClipM.CommandLine c output with
    | Ok line =>
        let '(fs', err) := Run env line fs in
        match err with
        | Some e =>
            (fs', Err ("cinema.Video.Concatenate: ffmpeg failed: " +:+ e))
        | None => (fs', Ok tt)
        end
    | Err msg => (fs, Err msg)
    | Panic msg => (fs, Panic msg)
    end in
  let '(fs, _) := deleteConcatenateList env fs c in
  (fs, res).

Definition Concatenate (env : Env) (fs : FS) (c : Clip) (output : string)
  : FS * outcome unit :=
  ConcatenateWithStreams env fs c output.


(** ** Video.Render *)

Section VideoRender.

Variable FormatSeconds : Z -> string.

(** RenderWithStreams (lines 156-167): the command is compiled, split
    into [line[0]] and [line[1:]] and run; the two writers only receive the
    output of the process and are not part of the state. *)
Definition RenderWithStreams (env : Env) (fs : FS) (v : Video)
  (output : string) : FS * outcome unit :=
  let line := CommandLine FormatSeconds v output in
  match line with
  | [] => (fs, Panic index_out_of_range)
  | name :: args =>
      let '(fs', err) := Run env (name :: args) fs in
      match err with
      | Some e => (fs', Err ("cinema.Video.Render: ffmpeg failed: " +:+ e))
      | None => (fs', Ok tt)
      end
  end.

Definition Render (env : Env) (fs : FS) (v : Video) (output : string)
  : FS * outcome unit :=
  RenderWithStreams env fs v output.

End VideoRender.

(** Calls that set the width and height of a Video. *)
Definition resizes (e : edit) : bool :=
  match e with
  | ESetSize _ _ | ECrop _ _ _ _ => true
  | _ => false
  end.

(** ** Shapes of paths used in the statements *)

(** [s] contains no separator. *)
Fixpoint noSeparator (s : string) : bool :=
  match s with
  | EmptyString => true
  | String c s' => negb (path_filepath.IsPathSeparator c) && noSeparator s'
  end.

(** A plain file name: not empty, without separator, and neither [.] nor
    [..]. *)
Definition plainName (s : string) : bool :=
  noSeparator s && negb (String.eqb s "") && negb (String.eqb s ".")
  && negb (String.eqb s "..").

(** The element lists Clean produces: plain names, preceded on a path that
    is not rooted by any number of [..]. *)
Definition cleanShape (rooted : bool) (elems : list string) : Prop :=
  exists (k : nat) (names : list string),
    elems = repeat ".." k ++ names /\
    Forall (fun e => plainName e = true) names /\
    (rooted = true -> k = 0%nat).

(** ** Lines of a text *)

Definition newlineChar : ascii := "010"%char.

(** [s] contains no newline. *)
Fixpoint noNewline (s : string) : bool :=
  match s with
  | EmptyString => true
  | String c s' => negb (Ascii.eqb c newlineChar) && noNewline s'
  end.

(** The lines of a text, without their newlines: every newline ends a
    line, and text after the last newline is a last line. *)
Fixpoint lines (s : string) : list string :=
  match s with
  | EmptyString => []
  | String c s' =>
      if Ascii.eqb c newlineChar then "" :: lines s'
      else match lines s' with
           | l :: rest => String c l :: rest
           | [] => [String c ""]
           end
  end.

(** ** A sample environment *)

(** A phone recording held upright: ffprobe reports the unrotated
    1080x1920 frame with a rotation tag of 90 degrees, one minute long. *)
Definition portrait_report : description :=
  {| Streams := [ {| Width := 0; Height := 0; Rotation := None |};
                  {| Width := 1080; Height := 1920;
                     Rotation := Some (inr 90) |} ];
     DurationSec := inr 60000000000;
     Bitrate := inr 2000000 |}.

(** ffprobe and ffmpeg are installed, every file exists and can be
    written, ffmpeg leaves the files alone and succeeds. *)
Definition sample_env : Env :=
  {| LookPath := fun file => inr ("/usr/bin/" +:+ file);
     Stat := fun _ => None;
     Output := fun _ => inr "{}";
     Unmarshal := fun _ => inr portrait_report;
     CreateErr := fun _ => None;
     WriteErr := fun _ _ => None;
     RemoveErr := fun _ => None;
     Run := fun _ fs => (fs, None) |}.

Definition sample_video : Video :=
  {| filepath := "in.mp4"; width := 1920; height := 1080; fps := 30;
     bitrate := 2000000; start := 0; end_ := 60000000000;
     duration := 60000000000; filters := []; additionalArgs := [] |}.

(** Two rendered clips in the directory [clips]. *)
Definition sample_paths : list string := ["clips/a.mov"; "clips/b.mov"].

Definition sample_clip : Clip :=
  {| videosPath := sample_paths; concatListCache := "clips/concat.txt" |}.

(** The same world, except that [clips/concat.txt] cannot be created: a
    read-only manifest of an earlier run is still there.  ffmpeg reads
    that one and succeeds. *)
Definition stale_env : Env :=
  {| LookPath := fun file => inr ("/usr/bin/" +:+ file);
     Stat := fun _ => None;
     Output := fun _ => inr "{}";
     Unmarshal := fun _ => inr portrait_report;
     CreateErr := fun path =>
       if String.eqb path "clips/concat.txt"
       then Some ("open " +:+ path +:+ ": permission denied")
       else None;
     WriteErr := fun _ _ => None;
     RemoveErr := fun _ => None;
     Run := fun _ fs => (fs, None) |}.

Definition stale_fs : FS :=
  {[ "clips/concat.txt" := manifestLine "old.mov" ]}.

(** A machine without ffprobe. *)
Definition bare_env : Env :=
  {| LookPath := fun file =>
       inl ("exec: " +:+ file +:+ ": executable file not found in $PATH");
     Stat := fun _ => None;
     Output := fun _ => inl "exec: no command";
     Unmarshal := fun _ => inl "unexpected end of JSON input";
     CreateErr := fun _ => None;
     WriteErr := fun _ _ => None;
     RemoveErr := fun _ => None;
     Run := fun _ fs => (fs, Some "exec: no command") |}.

(** The sample world with ffprobe printing another report. *)
Definition env_reporting (desc : description) : Env :=
  {| LookPath := LookPath sample_env;
     Stat := Stat sample_env;
     Output := Output sample_env;
     Unmarshal := fun _ => inr desc;
     CreateErr := CreateErr sample_env;
     WriteErr := WriteErr sample_env;
     RemoveErr := RemoveErr sample_env;
     Run := Run sample_env |}.

(** A report of an audio file whose bit rate is not available. *)
Definition audio_report : description :=
  {| Streams := [ {| Width := 0; Height := 0; Rotation := None |} ];
     DurationSec := inr 180000000000;
     Bitrate :=
       inl "strconv.ParseInt: parsing N/A: invalid syntax" |}.

(** The sample world in which [clips/b.mov] does not exist. *)
Definition env_missing_b : Env :=
  {| LookPath := LookPath sample_env;
     Stat := fun path =>
       if String.eqb path "clips/b.mov"
       then Some ("stat " +:+ path +:+ ": no such file or directory")
       else None;
     Output := Output sample_env;
     Unmarshal := Unmarshal sample_env;
     CreateErr := CreateErr sample_env;
     WriteErr := WriteErr sample_env;
     RemoveErr := RemoveErr sample_env;
     Run := Run sample_env |}.

(** ffprobe reports a duration of -1 second; the conversion of line 107
    gives -999999999 nanoseconds. *)
Definition negative_report : description :=
  {| Streams := [ {| Width := 640; Height := 480; Rotation := None |} ];
     DurationSec := inr (-999999999);
     Bitrate := inr 2000000 |}.

(** The Video Load builds from that report. *)
Definition negative_video : Video :=
  {| filepath := "bad.mp4"; width := 640; height := 480; fps := 30;
     bitrate := 2000000; start := 0; end_ := -999999999;
     duration := -999999999; filters := []; additionalArgs := [] |}.

(** A clip whose file name contains a newline. *)
Definition newline_paths : list string :=
  ["clips/x" +:+ String newlineChar "y.mov"].

(** The sample world, except that the system refuses to remove
    [clips/concat.txt]. *)
Definition env_no_remove : Env :=
  {| LookPath := LookPath sample_env;
     Stat := Stat sample_env;
     Output := Output sample_env;
     Unmarshal := Unmarshal sample_env;
     CreateErr := CreateErr sample_env;
     WriteErr := WriteErr sample_env;
     RemoveErr := fun path =>
       if String.eqb path "clips/concat.txt"
       then Some ("remove " +:+ path +:+ ": operation not permitted")
       else None;
     Run := Run sample_env |}.

(** * Properties *)

(** ** Clamping of the trim points *)

Lemma clampToDuration_range v t :
  0 <= duration v -> 0 <= clampToDuration v t <= duration v.
Proof.
  intros Hd. unfold clampToDuration.
  destruct (Z.ltb_spec t 0); destruct (Z.gtb_spec 0 (duration v));
    destruct (Z.gtb_spec t (duration v)); lia.
Qed.

Lemma clampToDuration_max_min v t :
  0 <= duration v -> clampToDuration v t = Z.max 0 (Z.min t (duration v)).
Proof.
  intros Hd. unfold clampToDuration.
  destruct (Z.ltb_spec t 0); destruct (Z.gtb_spec 0 (duration v));
    destruct (Z.gtb_spec t (duration v)); lia.
Qed.

Lemma SetStart_trim_ok v t : trim_ok v -> trim_ok (SetStart v t).
Proof.
  unfold trim_ok. intros (H0 & H1 & H2).
  assert (Hd : 0 <= duration v) by lia.
  pose proof (clampToDuration_range v t Hd) as Hc.
  unfold SetStart; simpl.
  destruct (Z.gtb_spec (clampToDuration v t) (end_ v)); lia.
Qed.

Lemma SetEnd_trim_ok v t : trim_ok v -> trim_ok (SetEnd v t).
Proof.
  unfold trim_ok. intros (H0 & H1 & H2).
  assert (Hd : 0 <= duration v) by lia.
  pose proof (clampToDuration_range v t Hd) as Hc.
  unfold SetEnd; simpl.
  destruct (Z.ltb_spec (clampToDuration v t) (start v)); lia.
Qed.

Lemma Trim_trim_ok v s e : trim_ok v -> trim_ok (Trim v s e).
Proof.
  intros H. unfold Trim. destruct (s <=? e); [|exact H].
  apply SetEnd_trim_ok, SetStart_trim_ok, H.
Qed.

Lemma apply_edit_trim_ok v e : trim_ok v -> trim_ok (apply_edit v e).
Proof.
  destruct e; simpl;
    auto using SetStart_trim_ok, SetEnd_trim_ok, Trim_trim_ok.
Qed.

Lemma states_after_trim_ok es : forall v,
  trim_ok v -> Forall trim_ok (states_after v es).
Proof.
  induction es as [|e es IH]; intros v Hv; simpl.
  - constructor.
  - constructor; [|apply IH]; apply apply_edit_trim_ok, Hv.
Qed.

(** No edit changes the duration of the source. *)
Lemma apply_edit_duration v e : duration (apply_edit v e) = duration v.
Proof.
  destruct e; simpl; try reflexivity.
  unfold Trim. destruct (_ <=? _); reflexivity.
Qed.

(** What Load returns starts untrimmed: from 0 to the probed duration. *)
Lemma Load_untrimmed env path v :
  Load env path = inr v -> start v = 0 /\ end_ v = duration v.
Proof.
  unfold Load. intros H.
  repeat match type of H with
         | match ?x with _ => _ end = _ => destruct x; try discriminate
         end.
  injection H as <-. simpl. auto.
Qed.

(** Load does not look at the sign of the duration: from a report with
    a negative duration it builds a Video whose end lies before its
    start. *)
Example Load_negative :
  Load (env_reporting negative_report) "bad.mp4" = inr negative_video.
Proof. reflexivity. Qed.

(** C1, as stated, fails: on that Video the invariant does not hold, and
    SetStart then moves the start below 0. *)
Lemma negative_duration_breaks_invariant :
  ~ (forall env path v (es : list edit),
       Load env path = inr v ->
       trim_ok v /\ Forall trim_ok (states_after v es)).
Proof.
  intros H.
  destruct (H (env_reporting negative_report) "bad.mp4" negative_video
              [ESetStart 5] eq_refl) as [_ HF].
  inversion HF as [|? ? Hv _]; subst.
  destruct Hv as (H0 & _). vm_compute in H0. apply H0. reflexivity.
Qed.

(** C1, amended.  A Video built by Load from a report whose duration is
    not negative satisfies [0 <= start <= end <= duration], and so does
    the state after each call of any sequence of SetStart, SetEnd, Trim,
    SetFPS, SetBitrate, SetSize, Crop and Mute with any arguments. *)
Theorem trim_points_invariant env path v (es : list edit) :
  Load env path = inr v ->
  0 <= duration v ->
  trim_ok v /\ Forall trim_ok (states_after v es).
Proof.
  intros HL Hd.
  destruct (Load_untrimmed _ _ _ HL) as [Hs He].
  assert (Hv : trim_ok v) by (unfold trim_ok; lia).
  split; [exact Hv|]. apply states_after_trim_ok, Hv.
Qed.

Lemma Load_sample : Load sample_env "in.mp4" = inr sample_video.
Proof. reflexivity. Qed.

Lemma trim_points_invariant_witness :
  Load sample_env "in.mp4" = inr sample_video /\
  0 <= duration sample_video /\
  trim_ok sample_video /\
  Forall trim_ok
    (states_after sample_video
       [ETrim 10000000000 20000000000; ESetStart (-5); ESetEnd 1;
        ESetStart 90000000000; ESetSize 400 300; EMute]).
Proof.
  assert (HL : Load sample_env "in.mp4" = inr sample_video) by reflexivity.
  assert (Hd : 0 <= duration sample_video) by (vm_compute; discriminate).
  split; [exact HL|]. split; [exact Hd|].
  exact (trim_points_invariant sample_env "in.mp4" sample_video _ HL Hd).
Defined.

(** C4, as stated, fails: clampToDuration takes the maximum with 0
    first and the minimum with the duration last, so on a Video with a
    negative duration SetStart sets start to the duration, not to 0. *)
Lemma SetStart_negative_duration :
  ~ (forall v t, start (SetStart v t) = Z.max 0 (Z.min t (duration v))).
Proof.
  intros H. specialize (H negative_video 5).
  vm_compute in H. discriminate H.
Qed.

(** C4, amended.  On a Video whose duration is not negative, SetStart(t)
    sets start to max(0, min(t, duration)); when that value exceeds the
    current end, end is raised to it, and otherwise end stays as it
    was. *)
Theorem SetStart_clamps v t :
  0 <= duration v ->
  let c := Z.max 0 (Z.min t (duration v)) in
  start (SetStart v t) = c /\
  (c > end_ v -> end_ (SetStart v t) = c) /\
  (c <= end_ v -> end_ (SetStart v t) = end_ v).
Proof.
  intros Hd c. subst c. rewrite <- (clampToDuration_max_min v t Hd).
  unfold SetStart; simpl.
  destruct (Z.gtb_spec (clampToDuration v t) (end_ v)); repeat split; lia.
Qed.

Lemma SetStart_clamps_witness :
  0 <= duration (SetEnd sample_video 5) /\
  start (SetStart (SetEnd sample_video 5) 90000000000) = 60000000000 /\
  end_ (SetStart (SetEnd sample_video 5) 90000000000) = 60000000000.
Proof.
  assert (Hd : 0 <= duration (SetEnd sample_video 5))
    by (vm_compute; discriminate).
  split; [exact Hd|].
  destruct (SetStart_clamps (SetEnd sample_video 5) 90000000000 Hd)
    as (Hs & He & _).
  split; [exact Hs|]. apply He. vm_compute. reflexivity.
Defined.

(** C5.  Trim(start, end) with start > end changes nothing: the Video is
    left exactly as it was (and there is no error to return). *)
Theorem Trim_inverted_noop v s e : s > e -> Trim v s e = v.
Proof.
  intros H. unfold Trim. destruct (Z.leb_spec s e); [lia|reflexivity].
Qed.

Lemma Trim_inverted_noop_witness :
  20000000000 > 10000000000 /\
  Trim sample_video 20000000000 10000000000 = sample_video.
Proof.
  assert (H : 20000000000 > 10000000000) by (vm_compute; reflexivity).
  split; [exact H|]. exact (Trim_inverted_noop sample_video _ _ H).
Defined.

(** ** The compiled command of a Video *)

(** [String.append] is kept folded by [simpl]; its two equations. *)
Lemma append_nil_l (b : string) : "" +:+ b = b.
Proof. reflexivity. Qed.

Lemma append_cons (x : ascii) (a b : string) :
  String x a +:+ b = String x (a +:+ b).
Proof. reflexivity. Qed.

Lemma append_assoc (a b c : string) : (a +:+ b) +:+ c = a +:+ b +:+ c.
Proof.
  induction a as [|x a IH]; [reflexivity|].
  rewrite !append_cons. now rewrite IH.
Qed.

Lemma append_nil_r (a : string) : a +:+ "" = a.
Proof.
  induction a as [|x a IH]; [reflexivity|].
  rewrite append_cons. now rewrite IH.
Qed.

(** Joining a list that ends in [x]: the separator comes before [x]
    exactly when something precedes it. *)
Lemma concat_snoc sep (l : list string) x :
  String.concat sep (l ++ [x]) =
  match l with
  | [] => x
  | _ => String.concat sep l +:+ sep +:+ x
  end.
Proof.
  induction l as [|a l IH]; [reflexivity|].
  destruct l as [|b l].
  - reflexivity.
  - change (String.concat sep ((a :: b :: l) ++ [x]))
      with (a +:+ sep +:+ String.concat sep ((b :: l) ++ [x])).
    rewrite IH.
    change (String.concat sep (a :: b :: l))
      with (a +:+ sep +:+ String.concat sep (b :: l)).
    now rewrite !append_assoc.
Qed.

Lemma filterChain_join v :
  filterChain v =
  strings.Join
    (filters v ++ ["setsar=1,fps=fps=" +:+ strconv.Itoa (fps v)]) ",".
Proof.
  unfold filterChain, strings.Join. rewrite concat_snoc.
  destruct (filters v) as [|a l].
  - reflexivity.
  - change (0 <? length (a :: l))%nat with true. cbv iota.
    now rewrite !append_assoc.
Qed.

(** On a Video that satisfies the invariant the 64-bit subtraction of the
    [-t] argument is the exact difference. *)
Lemma sub64_trim_ok v :
  trim_ok v -> int64 (duration v) ->
  sub64 (end_ v) (start v) = end_ v - start v.
Proof.
  unfold trim_ok, int64, sub64, wrap64. intros (H0 & H1 & H2) [H3 H4].
  rewrite Z.mod_small; lia.
Qed.

(** Filter fragments and additional arguments only grow, at the end, in
    the order of the calls. *)
Lemma apply_edit_appends v e :
  filters (apply_edit v e) = filters v ++ edit_filters e /\
  additionalArgs (apply_edit v e) = additionalArgs v ++ edit_args e.
Proof.
  destruct e; simpl; rewrite ?app_nil_r; auto.
  unfold Trim. destruct (_ <=? _); auto.
Qed.

Lemma after_edits_appends es : forall v,
  filters (after_edits v es) = filters v ++ flat_map edit_filters es /\
  additionalArgs (after_edits v es)
    = additionalArgs v ++ flat_map edit_args es.
Proof.
  unfold after_edits.
  induction es as [|e es IH]; intros v; simpl.
  - now rewrite !app_nil_r.
  - destruct (IH (apply_edit v e)) as [-> ->].
    destruct (apply_edit_appends v e) as [-> ->].
    now rewrite <- !app_assoc.
Qed.

(** C2.  The command of a Video is, in this order: the program name and
    the overwrite flag, the input path, [-ss] with the start, [-t] with end
    minus start, [-vb] with the bitrate, the additional arguments in the
    order they were appended, one [-vf] argument, the strictness flags and
    the output path.  The [-vf] argument is the comma-separated join of the
    filter fragments in the order they were appended followed by the
    setsar/fps fragment, which is therefore last, also when no fragment
    precedes it.  Both lists hold what the calls made so far appended, in
    the order of the calls. *)
Theorem CommandLine_order (FormatSeconds : Z -> string) v output :
  CommandLine FormatSeconds v output =
    ["ffmpeg"; "-y";
     "-i"; filepath v;
     "-ss"; FormatSeconds (start v);
     "-t"; FormatSeconds (sub64 (end_ v) (start v));
     "-vb"; strconv.Itoa (bitrate v)]
    ++ additionalArgs v
    ++ ["-vf";
        strings.Join
          (filters v ++ ["setsar=1,fps=fps=" +:+ strconv.Itoa (fps v)]) ",";
        "-strict"; "-2";
        output] /\
  forall es : list edit,
    additionalArgs (after_edits v es)
      = additionalArgs v ++ flat_map edit_args es /\
    filters (after_edits v es) = filters v ++ flat_map edit_filters es.
Proof.
  split.
  - unfold CommandLine. rewrite filterChain_join.
    rewrite <- !app_assoc. reflexivity.
  - intros es. destruct (after_edits_appends es v) as [Hf Ha]. auto.
Qed.

(** The example of the README: resize, crop, resize, then 48 frames per
    second. *)
Example filterChain_three_fragments :
  filterChain
    (SetFPS (SetSize (Crop (SetSize sample_video 400 300) 0 0 200 200)
                     400 400) 48)
  = "scale=400:300,crop=200:200:0:0,scale=400:400,setsar=1,fps=fps=48".
Proof. reflexivity. Qed.

Example filterChain_no_fragment :
  filterChain sample_video = "setsar=1,fps=fps=30".
Proof. reflexivity. Qed.

(** C3, as stated, fails: a Video whose bitrate is 0 still gets the
    [-vb] argument. *)
Lemma bitrate_zero_is_passed :
  ~ (forall (FormatSeconds : Z -> string) v output,
       bitrate v = 0 ->
       ~ In "-vb" (CommandLine FormatSeconds v output)).
Proof.
  intros H.
  apply (H (fun _ => "0") (SetBitrate sample_video 0) "out.mp4").
  - reflexivity.
  - vm_compute. tauto.
Qed.

(** C3, amended.  The command always carries the video-bitrate argument:
    [-vb] at index 8 followed by the decimal bitrate at index 9.  A bitrate
    of 0 is passed like any other, as [-vb 0]. *)
Theorem CommandLine_always_bitrate (FormatSeconds : Z -> string) v output :
  CommandLine FormatSeconds v output !! 8%nat = Some "-vb" /\
  CommandLine FormatSeconds v output !! 9%nat
    = Some (strconv.Itoa (bitrate v)) /\
  (bitrate v = 0 ->
   CommandLine FormatSeconds v output !! 9%nat = Some "0").
Proof.
  split; [reflexivity|]. split; [reflexivity|].
  intros H. unfold CommandLine. rewrite H. reflexivity.
Qed.

Lemma CommandLine_always_bitrate_witness :
  bitrate (SetBitrate sample_video 0) = 0 /\
  CommandLine (fun _ => "0") (SetBitrate sample_video 0) "out.mp4" !! 8%nat
    = Some "-vb" /\
  CommandLine (fun _ => "0") (SetBitrate sample_video 0) "out.mp4" !! 9%nat
    = Some "0".
Proof.
  assert (H : bitrate (SetBitrate sample_video 0) = 0) by reflexivity.
  split; [exact H|].
  destruct (CommandLine_always_bitrate (fun _ => "0")
              (SetBitrate sample_video 0) "out.mp4") as (H8 & _ & H9).
  split; [exact H8|exact (H9 H)].
Defined.

(** ** Rotation of the probed dimensions *)

(** Go's [flipCount%2 != 0] on a possibly negative count is oddness. *)
Lemma rem_2_odd (n : Z) : negb (Z.rem n 2 =? 0) = Z.odd n.
Proof.
  pose proof (Z.quot_rem' n 2) as Hqr.
  assert (Hb : -1 <= Z.rem n 2 <= 1).
  { pose proof (Z.rem_bound_abs n 2 ltac:(lia)). lia. }
  assert (Ho : Z.odd n = Z.odd (Z.rem n 2)).
  { rewrite Hqr at 1. rewrite Z.add_comm. apply Z.odd_add_mul_2. }
  rewrite Ho.
  assert (Hc : Z.rem n 2 = -1 \/ Z.rem n 2 = 0 \/ Z.rem n 2 = 1) by lia.
  destruct Hc as [-> | [-> | ->]]; reflexivity.
Qed.

Lemma rotated_tag s r :
  Rotation s = Some (inr r) ->
  rotated s = inr (if Z.odd (Z.quot r 90)
                   then (Height s, Width s)
                   else (Width s, Height s)).
Proof.
  intros H. unfold rotated. rewrite H, rem_2_odd.
  destruct (Z.odd _); reflexivity.
Qed.

(** C6.  When Load gets as far as the rotation (ffprobe is found, the
    file exists, the report decodes, has a stream, a duration and a bit
    rate) and the selected stream [s] carries a rotation tag [r], Load
    returns a Video whose width and height are those of [s] swapped exactly
    when [r / 90] (division truncating towards zero) is odd.  A report with
    rotation 90 and dimensions 1080x1920 gives width 1920 and height
    1080. *)
Theorem Load_rotation env path ffprobe out desc d b s r :
  LookPath env "ffprobe" = inr ffprobe ->
  Stat env path = None ->
  Output env (ffprobe_argv path) = inr out ->
  Unmarshal env out = inr desc ->
  DurationSec desc = inr d ->
  Bitrate desc = inr b ->
  Streams desc !! dsIndex (Streams desc) = Some s ->
  Rotation s = Some (inr r) ->
  exists v,
    Load env path = inr v /\
    (width v, height v) =
      (if Z.odd (Z.quot r 90)
       then (Height s, Width s)
       else (Width s, Height s)) /\
    (r = 90 -> Width s = 1080 -> Height s = 1920 ->
     width v = 1920 /\ height v = 1080).
Proof.
  intros HL HS HO HU HD HB Hs Hr.
  unfold Load. rewrite HL, HS, HO, HU, HD, HB.
  destruct (Streams desc) as [|s0 rest] eqn:Hst; [discriminate Hs|].
  assert (Hsel : nth (dsIndex (s0 :: rest)) (s0 :: rest) s0 = s).
  { apply nth_lookup_Some with (d := s0) in Hs. exact Hs. }
  rewrite Hsel, (rotated_tag s r Hr).
  eexists. split; [reflexivity|]. cbn [width height].
  split.
  - destruct (Z.odd _); reflexivity.
  - intros -> -> ->. split; reflexivity.
Qed.

Lemma Load_rotation_witness :
  exists v,
    Load sample_env "in.mp4" = inr v /\
    (width v, height v) = (1920, 1080) /\
    (90 = 90 -> 1080 = 1080 -> 1920 = 1920 ->
     width v = 1920 /\ height v = 1080).
Proof.
  exact (Load_rotation sample_env "in.mp4" "/usr/bin/ffprobe" "{}"
           portrait_report 60000000000 2000000
           {| Width := 1080; Height := 1920; Rotation := Some (inr 90) |} 90
           eq_refl eq_refl eq_refl eq_refl eq_refl eq_refl eq_refl eq_refl).
Defined.

(** Rotations by negative and by three quarter turns swap as well; half
    turns and angles below a quarter turn do not. *)
Example rotated_cases :
  map (fun r => rotated {| Width := 1080; Height := 1920;
                           Rotation := Some (inr r) |})
      [-270; -180; -90; -89; 0; 45; 90; 180; 270; 360]
  = map inr [(1920, 1080); (1080, 1920); (1920, 1080); (1080, 1920);
             (1080, 1920); (1080, 1920); (1920, 1080); (1080, 1920);
             (1920, 1080); (1080, 1920)].
Proof. reflexivity. Qed.

(** ** Lexical facts about paths *)

Section PathLemmas.
Import path_filepath.

Lemma split_nonempty s : exists e rest, split s = e :: rest.
Proof.
  induction s as [|c s IH]; simpl; [eauto|].
  destruct (IsPathSeparator c); [eauto|].
  destruct IH as (e & rest & ->). eauto.
Qed.

Lemma split_noSeparator s : noSeparator s = true -> split s = [s].
Proof.
  induction s as [|c s IH]; simpl; [reflexivity|].
  destruct (IsPathSeparator c); simpl; [discriminate|].
  intros H. now rewrite (IH H).
Qed.

Lemma split_elems_noSeparator s :
  Forall (fun e => noSeparator e = true) (split s).
Proof.
  induction s as [|c s IH]; simpl.
  - repeat constructor.
  - destruct (IsPathSeparator c) eqn:Hc.
    + constructor; [reflexivity|exact IH].
    + destruct (split s) as [|e rest]; [repeat constructor; simpl; now rewrite Hc|].
      inversion IH; subst. constructor; [|assumption].
      simpl. now rewrite Hc.
Qed.

Lemma split_app_sep a b : split (a +:+ "/" +:+ b) = split a ++ split b.
Proof.
  induction a as [|c a IH].
  - reflexivity.
  - rewrite append_cons. simpl. rewrite IH.
    destruct (IsPathSeparator c); [reflexivity|].
    destruct (split_nonempty a) as (e & rest & ->). reflexivity.
Qed.

Lemma split_concat l :
  l <> [] -> Forall (fun e => noSeparator e = true) l ->
  split (String.concat "/" l) = l.
Proof.
  induction l as [|a l IH]; [congruence|]. intros _ Hl.
  inversion Hl as [|? ? Ha Hl']; subst.
  destruct l as [|b l].
  - simpl. now apply split_noSeparator.
  - change (String.concat "/" (a :: b :: l))
      with (a +:+ "/" +:+ String.concat "/" (b :: l)).
    rewrite split_app_sep, IH by (congruence || assumption).
    now rewrite (split_noSeparator a Ha).
Qed.

Lemma plainName_inv e :
  plainName e = true ->
  noSeparator e = true /\ String.eqb e "" = false /\
  String.eqb e "." = false /\ String.eqb e ".." = false.
Proof.
  unfold plainName. rewrite !andb_true_iff, !negb_true_iff. tauto.
Qed.

Lemma plainName_intro e :
  noSeparator e = true -> String.eqb e "" = false ->
  String.eqb e "." = false -> String.eqb e ".." = false ->
  plainName e = true.
Proof.
  unfold plainName. intros -> -> -> ->. reflexivity.
Qed.

(** Plain names are pushed one after the other. *)
Lemma cleanElems_names rooted names : forall out rest,
  Forall (fun e => plainName e = true) names ->
  cleanElems rooted out (names ++ rest)
  = cleanElems rooted (rev names ++ out) rest.
Proof.
  induction names as [|e names IH]; intros out rest H; [reflexivity|].
  inversion H as [|? ? He H']; subst.
  destruct (plainName_inv e He) as (_ & E1 & E2 & E3).
  simpl. rewrite E1, E2, E3. simpl.
  rewrite (IH _ _ H'), <- app_assoc. reflexivity.
Qed.

(** Leading [..] elements of a path that is not rooted pile up. *)
Lemma cleanElems_dotdots k : forall j rest,
  cleanElems false (repeat ".." j) (repeat ".." k ++ rest)
  = cleanElems false (repeat ".." (k + j)) rest.
Proof.
  induction k as [|k IH]; intros j rest; [reflexivity|].
  change (repeat ".." (S k) ++ rest) with (".." :: (repeat ".." k ++ rest)).
  replace (S k + j)%nat with (k + S j)%nat by lia.
  rewrite <- IH. destruct j; reflexivity.
Qed.

Lemma rev_repeat {A} (x : A) k : rev (repeat x k) = repeat x k.
Proof.
  induction k as [|k IH]; [reflexivity|].
  simpl. rewrite IH. clear IH.
  induction k as [|k IH]; [reflexivity|]. simpl. now rewrite IH.
Qed.

(** Cleaning a list that already has the shape of a clean path, followed
    by more elements, starts the remaining work from that list. *)
Lemma cleanElems_cleanShape rooted l rest :
  cleanShape rooted l ->
  cleanElems rooted [] (l ++ rest) = cleanElems rooted (rev l) rest.
Proof.
  intros (k & names & -> & Hn & Hk).
  rewrite rev_app_distr, rev_repeat, <- app_assoc.
  destruct rooted.
  - rewrite (Hk eq_refl). simpl. now apply cleanElems_names.
  - etransitivity; [exact (cleanElems_dotdots k 0 (names ++ rest))|].
    rewrite Nat.add_0_r. now apply cleanElems_names.
Qed.

(** One step of the element loop keeps the shape. *)
Lemma cleanElems_step_shape rooted out e :
  cleanShape rooted (rev out) -> noSeparator e = true ->
  cleanShape rooted (rev (cleanElems rooted out [e])).
Proof.
  intros Hs He.
  simpl.
  destruct (String.eqb e "") eqn:E1; [exact Hs|].
  destruct (String.eqb e ".") eqn:E2; [exact Hs|]. simpl.
  destruct (String.eqb e "..") eqn:E3.
  - apply String.eqb_eq in E3. subst e.
    destruct Hs as (k & names & Hl & Hn & Hk).
    destruct out as [|top below].
    + destruct rooted.
      * exists 0%nat, []. repeat split; auto.
      * exists 1%nat, []. repeat split; auto. discriminate.
    + simpl in Hl.
      destruct (String.eqb top "..") eqn:Et.
      * apply String.eqb_eq in Et. subst top.
        (* the last element is [..]: there is no plain name *)
        destruct names as [|n names _] using rev_ind.
        -- rewrite app_nil_r in Hl. exists (S k), [].
           split; [|split; [constructor|]].
           ++ simpl. rewrite Hl, app_nil_r.
              change (".." :: repeat ".." k) with (repeat ".." (S k)).
              rewrite <- (rev_repeat ".." (S k)). simpl.
              now rewrite rev_repeat.
           ++ intros Hr. specialize (Hk Hr). subst k. simpl in Hl.
              destruct (rev below); discriminate.
        -- exfalso. rewrite app_assoc in Hl.
           apply app_inj_tail in Hl as [_ <-].
           apply Forall_app in Hn as [_ Hn]. inversion Hn as [|? ? Hp _]; subst.
           destruct (plainName_inv _ Hp) as (_ & _ & _ & E). discriminate.
      * apply String.eqb_neq in Et.
        destruct names as [|n names _] using rev_ind.
        -- exfalso. rewrite app_nil_r in Hl.
           destruct k as [|k].
           ++ simpl in Hl. destruct (rev below); discriminate.
           ++ rewrite <- (rev_repeat ".." (S k)) in Hl. simpl in Hl.
              apply app_inj_tail in Hl as [_ Hl]. congruence.
        -- rewrite app_assoc in Hl. apply app_inj_tail in Hl as [Hl _].
           apply Forall_app in Hn as [Hn _].
           exists k, names. auto.
  - destruct Hs as (k & names & Hl & Hn & Hk).
    exists k, (names ++ [e]). split; [|split; [|exact Hk]].
    + simpl. rewrite Hl, <- app_assoc. reflexivity.
    + apply Forall_app. split; [exact Hn|].
      constructor; [|constructor]. now apply plainName_intro.
Qed.

Lemma cleanElems_app rooted l1 : forall out l2,
  cleanElems rooted out (l1 ++ l2)
  = cleanElems rooted (cleanElems rooted out l1) l2.
Proof.
  induction l1 as [|e l1 IH]; intros out l2; [reflexivity|].
  simpl.
  destruct (String.eqb e "" || String.eqb e "."); [apply IH|].
  destruct (String.eqb e "..").
  - destruct out as [|top below].
    + destruct rooted; apply IH.
    + destruct (String.eqb top ".."); apply IH.
  - apply IH.
Qed.

(** The element loop produces the shape of a clean path. *)
Lemma cleanElems_shape rooted elems : forall out,
  cleanShape rooted (rev out) ->
  Forall (fun e => noSeparator e = true) elems ->
  cleanShape rooted (rev (cleanElems rooted out elems)).
Proof.
  induction elems as [|e elems IH]; intros out Hs He; [exact Hs|].
  inversion He as [|? ? He1 He2]; subst.
  change (e :: elems) with ([e] ++ elems). rewrite cleanElems_app.
  apply IH; [|exact He2]. now apply cleanElems_step_shape.
Qed.

Lemma cleanShape_nil rooted : cleanShape rooted [].
Proof. exists 0%nat, []. repeat split; auto. Qed.

Lemma Clean_nonempty p :
  p <> "" ->
  Clean p = cleanOut (isRooted p) (rev (cleanElems (isRooted p) [] (split p))).
Proof. destruct p; [congruence|reflexivity]. Qed.

(** Clean always returns a path of the clean shape. *)
Lemma Clean_shape p :
  exists l, Clean p = cleanOut (isRooted p) l /\ cleanShape (isRooted p) l.
Proof.
  destruct (String.eqb_spec p "") as [->|Hp].
  - exists []. split; [reflexivity|apply cleanShape_nil].
  - eexists. split; [apply Clean_nonempty, Hp|].
    apply cleanElems_shape; [apply cleanShape_nil|].
    apply split_elems_noSeparator.
Qed.

Lemma cleanShape_noSeparator rooted l :
  cleanShape rooted l -> Forall (fun e => noSeparator e = true) l.
Proof.
  intros (k & names & -> & Hn & _). apply Forall_app. split.
  - clear. induction k; constructor; auto.
  - eapply Forall_impl; [exact Hn|]. intros e He.
    now destruct (plainName_inv e He).
Qed.

Lemma cleanShape_head_nonempty l e rest :
  cleanShape false l -> l = e :: rest ->
  exists c e', e = String c e' /\ IsPathSeparator c = false.
Proof.
  intros (k & names & -> & Hn & _) H.
  destruct k as [|k].
  - simpl in H. subst names. inversion Hn as [|? ? He _]; subst.
    destruct (plainName_inv e He) as (Hs & E1 & _).
    destruct e as [|c e']; [discriminate|]. simpl in Hs.
    apply andb_true_iff in Hs as [Hc _]. apply negb_true_iff in Hc. eauto.
  - simpl in H. injection H as <- _. exists "."%char, ".". auto.
Qed.

Lemma concat_cons_nonempty sep a b (l : list string) :
  String.concat sep (a :: b :: l) = a +:+ sep +:+ String.concat sep (b :: l).
Proof. reflexivity. Qed.

Lemma concat_head c e' (rest : list string) :
  exists t, String.concat "/" (String c e' :: rest) = String c t.
Proof.
  destruct rest as [|b rest]; [simpl; eauto|].
  rewrite concat_cons_nonempty, append_cons. eauto.
Qed.

(** The first character tells whether the written path is rooted. *)
Lemma cleanOut_head rooted l :
  cleanShape rooted l ->
  exists c t, cleanOut rooted l = String c t /\ IsPathSeparator c = rooted.
Proof.
  intros Hs. destruct rooted; simpl.
  - exists "/"%char. eexists. split; reflexivity.
  - destruct l as [|e rest]; [exists "."%char, ""; auto|].
    destruct (cleanShape_head_nonempty _ _ _ Hs eq_refl) as (c & e' & -> & Hc).
    destruct (concat_head c e' rest) as (t & Ht).
    exists c, t. split; [exact Ht|exact Hc].
Qed.

(** Reading back a written path: its elements, cleaned again, are the
    elements it was written from. *)
Lemma cleanElems_split_cleanOut rooted l rest :
  cleanShape rooted l ->
  cleanElems rooted [] (split (cleanOut rooted l) ++ rest)
  = cleanElems rooted (rev l) rest.
Proof.
  intros Hs. pose proof (cleanShape_noSeparator _ _ Hs) as Hn.
  destruct rooted; unfold cleanOut.
  - change ("/" +:+ String.concat "/" l)
      with ("" +:+ "/" +:+ String.concat "/" l).
    rewrite split_app_sep.
    destruct l as [|e l'].
    + reflexivity.
    + rewrite split_concat by (congruence || assumption).
      change (cleanElems true [] ((split "" ++ e :: l') ++ rest))
        with (cleanElems true [] ((e :: l') ++ rest)).
      now apply cleanElems_cleanShape.
  - destruct l as [|e l'].
    + reflexivity.
    + rewrite split_concat by (congruence || assumption).
      now apply cleanElems_cleanShape.
Qed.

(** Cleaning a clean path followed by a separator and one more element
    is one more step of the element loop. *)
Lemma Clean_extend rooted l e :
  cleanShape rooted l -> noSeparator e = true ->
  Clean (cleanOut rooted l +:+ "/" +:+ e)
  = cleanOut rooted (rev (cleanElems rooted (rev l) [e])).
Proof.
  intros Hs He.
  destruct (cleanOut_head rooted l Hs) as (c & t & Hc & Hr).
  assert (Hroot : isRooted (cleanOut rooted l +:+ "/" +:+ e) = rooted).
  { rewrite Hc, append_cons. exact Hr. }
  rewrite Clean_nonempty by (rewrite Hc, append_cons; discriminate).
  rewrite Hroot, split_app_sep, (split_noSeparator e He).
  now rewrite cleanElems_split_cleanOut.
Qed.

Lemma Clean_extend_name rooted l n :
  cleanShape rooted l -> plainName n = true ->
  Clean (cleanOut rooted l +:+ "/" +:+ n) = cleanOut rooted (l ++ [n]).
Proof.
  intros Hs Hn. destruct (plainName_inv n Hn) as (H0 & E1 & E2 & E3).
  rewrite Clean_extend by assumption.
  simpl. rewrite E1, E2, E3. simpl. now rewrite rev_involutive.
Qed.

Lemma Clean_trailing_separator rooted l :
  cleanShape rooted l ->
  Clean (cleanOut rooted l +:+ "/") = cleanOut rooted l.
Proof.
  intros Hs. rewrite <- (append_nil_r "/"). rewrite Clean_extend by auto.
  simpl. now rewrite rev_involutive.
Qed.

Lemma throughLastSeparator_noSeparator n :
  noSeparator n = true -> throughLastSeparator n = "".
Proof.
  induction n as [|c n IH]; [reflexivity|]. simpl.
  destruct (IsPathSeparator c); simpl; [discriminate|].
  intros H. now rewrite (IH H).
Qed.

Lemma append_sep_nonempty a t : String.eqb (a +:+ String "/" t) "" = false.
Proof. destruct a; reflexivity. Qed.

Lemma throughLastSeparator_cons c s :
  throughLastSeparator (String c s) =
  if IsPathSeparator c || negb (String.eqb (throughLastSeparator s) "")
  then String c (throughLastSeparator s) else "".
Proof. reflexivity. Qed.

Lemma throughLastSeparator_app a n :
  noSeparator n = true ->
  throughLastSeparator (a +:+ "/" +:+ n) = a +:+ "/".
Proof.
  intros Hn. induction a as [|c a IH].
  - change ("" +:+ "/" +:+ n) with (String "/" n).
    rewrite throughLastSeparator_cons.
    now rewrite (throughLastSeparator_noSeparator n Hn).
  - rewrite !(append_cons c a), throughLastSeparator_cons, IH.
    rewrite (append_sep_nonempty a ""). now rewrite orb_true_r.
Qed.

Lemma afterLastSeparator_noSeparator n :
  noSeparator n = true -> afterLastSeparator n = n.
Proof.
  intros Hn. destruct n as [|c n]; [reflexivity|].
  unfold afterLastSeparator.
  now rewrite (throughLastSeparator_noSeparator _ Hn).
Qed.

Lemma afterLastSeparator_app a n :
  noSeparator n = true -> afterLastSeparator (a +:+ "/" +:+ n) = n.
Proof.
  intros Hn. induction a as [|c a IH].
  - change ("" +:+ "/" +:+ n) with (String "/" n).
    unfold afterLastSeparator; fold afterLastSeparator.
    change (String "/" n) with ("" +:+ "/" +:+ n).
    rewrite (throughLastSeparator_app "" n Hn).
    now apply afterLastSeparator_noSeparator.
  - rewrite (append_cons c a).
    unfold afterLastSeparator; fold afterLastSeparator.
    rewrite <- (append_cons c a), (throughLastSeparator_app _ n Hn).
    rewrite (append_sep_nonempty (String c a) ""). exact IH.
Qed.

Lemma stripTrailingSeparators_app a n :
  noSeparator n = true -> n <> "" ->
  stripTrailingSeparators (a +:+ n) = a +:+ n.
Proof.
  intros Hn Hne.
  assert (Hs : stripTrailingSeparators n = n).
  { clear Hne. induction n as [|c n IH]; [reflexivity|].
    simpl in *. apply andb_true_iff in Hn as [Hc Hn].
    apply negb_true_iff in Hc. rewrite (IH Hn), Hc.
    now rewrite andb_false_r. }
  induction a as [|c a IH]; [exact Hs|].
  rewrite (append_cons c a). simpl. rewrite IH.
  assert (E : String.eqb (a +:+ n) "" = false).
  { destruct a; [|reflexivity].
    destruct n; [congruence|reflexivity]. }
  now rewrite E.
Qed.

(** The written form of a non-empty element list ends in its last
    element, after a separator. *)
Lemma cleanOut_snoc rooted l n :
  cleanOut rooted (l ++ [n]) =
  match l, rooted with
  | [], true => "" +:+ "/" +:+ n
  | [], false => n
  | _, _ => cleanOut rooted l +:+ "/" +:+ n
  end.
Proof.
  unfold cleanOut. rewrite concat_snoc.
  destruct l as [|e l'], rooted; reflexivity.
Qed.

(** The directory of a clean path extended by a plain name is that clean
    path. *)
Lemma Dir_cleanOut_snoc rooted l n :
  cleanShape rooted l -> plainName n = true ->
  Dir (cleanOut rooted (l ++ [n])) = cleanOut rooted l.
Proof.
  intros Hs Hn. destruct (plainName_inv n Hn) as (H0 & _).
  rewrite (cleanOut_snoc rooted l n). unfold Dir.
  destruct l as [|e l'].
  - destruct rooted.
    + now rewrite (throughLastSeparator_app "" n H0).
    + now rewrite (throughLastSeparator_noSeparator n H0).
  - replace (match rooted with
             | true | _ => cleanOut rooted (e :: l') +:+ "/" +:+ n
             end)
      with (cleanOut rooted (e :: l') +:+ "/" +:+ n)
      by (destruct rooted; reflexivity).
    rewrite (throughLastSeparator_app _ n H0).
    now apply Clean_trailing_separator.
Qed.

Lemma Base_nonempty p :
  p <> "" ->
  Base p =
  if String.eqb (afterLastSeparator (stripTrailingSeparators p)) ""
  then "/" else afterLastSeparator (stripTrailingSeparators p).
Proof. destruct p; [congruence|reflexivity]. Qed.

(** Its last element is that name. *)
Lemma Base_cleanOut_snoc rooted l n :
  cleanShape rooted l -> plainName n = true ->
  Base (cleanOut rooted (l ++ [n])) = n.
Proof.
  intros Hs Hn. destruct (plainName_inv n Hn) as (H0 & E1 & _).
  apply String.eqb_neq in E1.
  assert (Hform : exists a, cleanOut rooted (l ++ [n]) = a +:+ n /\
                            afterLastSeparator (a +:+ n) = n).
  { rewrite (cleanOut_snoc rooted l n).
    destruct l as [|e l'].
    - destruct rooted.
      + exists "/". split; [reflexivity|].
        exact (afterLastSeparator_app "" n H0).
      + exists "". split; [reflexivity|].
        now apply afterLastSeparator_noSeparator.
    - exists (cleanOut rooted (e :: l') +:+ "/"). split.
      + destruct rooted; now rewrite append_assoc.
      + rewrite append_assoc. now apply afterLastSeparator_app. }
  destruct Hform as (a & -> & Hafter).
  assert (Hne : a +:+ n <> "").
  { destruct a; [rewrite append_nil_l; exact E1|discriminate]. }
  rewrite (Base_nonempty _ Hne).
  rewrite (stripTrailingSeparators_app a n H0 E1), Hafter.
  apply String.eqb_neq in E1. now rewrite E1.
Qed.

Lemma cleanOut_nonempty rooted l :
  cleanShape rooted l -> String.eqb (cleanOut rooted l) "" = false.
Proof.
  intros Hs. destruct (cleanOut_head rooted l Hs) as (c & t & -> & _).
  reflexivity.
Qed.

(** Joining the directory of a path with a plain file name gives a path
    in that directory, named by that file name. *)
Lemma Join_Dir_name p n :
  plainName n = true ->
  Dir (Join [Dir p; n]) = Dir p /\ Base (Join [Dir p; n]) = n.
Proof.
  intros Hn. unfold Dir at 2 4.
  destruct (Clean_shape (throughLastSeparator p)) as (l & Hl & Hs).
  set (rooted := isRooted (throughLastSeparator p)) in *.
  fold (Dir p) in *. rewrite Hl.
  unfold Join. rewrite (cleanOut_nonempty rooted l Hs).
  change (strings.Join [cleanOut rooted l; n] "/")
    with (cleanOut rooted l +:+ "/" +:+ n).
  rewrite (Clean_extend_name rooted l n Hs Hn).
  split; [now apply Dir_cleanOut_snoc | now apply Base_cleanOut_snoc].
Qed.

End PathLemmas.

(** ** Building a Clip *)

Lemma NewClip_Ok env videoPath c :
  NewClip env videoPath = Ok c ->
  exists first rest,
    videoPath = first :: rest /\
    videosPath c = videoPath /\
    concatListCache c
      = path_filepath.Join [path_filepath.Dir first; "concat.txt"].
Proof.
  unfold NewClip. intros H.
  destruct (LookPath env "ffprobe"); [discriminate|].
  destruct (statAll env videoPath); [discriminate|].
  destruct videoPath as [|first rest]; [discriminate|].
  injection H as <-. exists first, rest. auto.
Qed.

(** C10.  NewClip reads [videoPath[0]] without looking at the length of
    the list.  Once ffprobe has been found, an empty list makes it panic
    with an index out of range instead of returning an error; on a
    non-empty list it returns a Clip or an error and never panics; a Clip
    is never built from an empty list.  Clip.CommandLine indexes the first
    member in the same way and panics on a Clip without members. *)
Theorem NewClip_needs_member env ffprobe :
  LookPath env "ffprobe" = inr ffprobe ->
  NewClip env [] = Panic index_out_of_range /\
  (forall first rest,
     (exists c, NewClip env (first :: rest) = Ok c) \/
     (exists msg, NewClip env (first :: rest) = Err msg)) /\
  (forall videoPath c, NewClip env videoPath = Ok c -> videoPath <> []) /\
  (forall c output,
     videosPath c = [] ->
     ClipM.CommandLine c output = Panic index_out_of_range).
Proof.
  intros HL. repeat split.
  - unfold NewClip. rewrite HL. reflexivity.
  - intros first rest. unfold NewClip. rewrite HL.
    destruct (statAll env (first :: rest)); eauto.
  - intros videoPath c H ->. unfold NewClip in H. rewrite HL in H.
    discriminate.
  - intros c output H. unfold ClipM.CommandLine. now rewrite H.
Qed.

Lemma NewClip_needs_member_witness :
  LookPath sample_env "ffprobe" = inr "/usr/bin/ffprobe" /\
  NewClip sample_env [] = Panic index_out_of_range /\
  ClipM.CommandLine {| videosPath := []; concatListCache := "" |} "out.mov"
    = Panic index_out_of_range.
Proof.
  assert (HL : LookPath sample_env "ffprobe" = inr "/usr/bin/ffprobe")
    by reflexivity.
  split; [exact HL|].
  destruct (NewClip_needs_member sample_env _ HL) as (H1 & _ & _ & H4).
  split; [exact H1|]. apply H4. reflexivity.
Defined.

Example NewClip_sample : NewClip sample_env sample_paths = Ok sample_clip.
Proof. reflexivity. Qed.

(** Without ffprobe the lookup fails first, also for an empty list. *)
Example NewClip_bare : NewClip bare_env [] = Err ffprobe_not_found.
Proof. reflexivity. Qed.

(** ** The concatenation manifest *)

(** The contents saveConcatenateList writes. *)
Lemma writeLines_appends env path videos : forall (fs : FS) content,
  (forall data, WriteErr env path data = None) ->
  writeLines env (<[path := content]> fs) path videos
  = <[path := content +:+
        String.concat ""
          (map (fun video => manifestLine (path_filepath.Base video)) videos)]>
      fs.
Proof.
  induction videos as [|video videos IH]; intros fs content HW.
  - simpl. now rewrite append_nil_r.
  - simpl writeLines. unfold Fprintf. rewrite HW.
    rewrite alter_insert_eq, (IH _ _ HW), append_assoc.
    f_equal. f_equal.
    destruct videos; [simpl; now rewrite append_nil_r|reflexivity].
Qed.

Lemma concat_empty_sep_cons a (l : list string) :
  String.concat "" (a :: l) = a +:+ String.concat "" l.
Proof. destruct l; [simpl; now rewrite append_nil_r|reflexivity]. Qed.

(** The deferred removal.  When the system lets the manifest be removed
    it is not there when ConcatenateWithStreams returns or panics,
    whatever happened before. *)
Lemma Concatenate_removes_manifest env (fs : FS) c output :
  RemoveErr env (concatListCache c) = None ->
  fst (ConcatenateWithStreams env fs c output) !! concatListCache c = None.
Proof.
  intros HR. unfold ConcatenateWithStreams.
  destruct (saveConcatenateList env fs c) as [fs1 e1].
  destruct (match ClipM.CommandLine c output with
            | Ok line =>
                let '(fs', err) := Run env line fs1 in
                match err with
                | Some e =>
                    (fs', Err ("cinema.Video.Concatenate: ffmpeg failed: " +:+ e))
                | None => (fs', Ok tt)
                end
            | Err msg => (fs1, Err msg)
            | Panic msg => (fs1, Panic msg)
            end) as [fs2 res].
  unfold deleteConcatenateList. rewrite HR.
  destruct (fs2 !! concatListCache c) eqn:E; simpl.
  - apply lookup_delete_eq.
  - exact E.
Qed.

(** What the deferred call does to the files ffmpeg left. *)
Lemma deleteConcatenateList_files env (fs : FS) c :
  fst (deleteConcatenateList env fs c) =
  match RemoveErr env (concatListCache c) with
  | Some _ => fs
  | None => delete (concatListCache c) fs
  end.
Proof.
  unfold deleteConcatenateList.
  destruct (RemoveErr env (concatListCache c)); [reflexivity|].
  destruct (fs !! concatListCache c) eqn:E; [reflexivity|].
  simpl. now rewrite delete_id.
Qed.

(** ConcatenateWithStreams on a Clip with members, step by step. *)
Lemma ConcatenateWithStreams_steps env (fs : FS) c first rest output :
  videosPath c = first :: rest ->
  exists line,
    ClipM.CommandLine c output = Ok line /\
    ConcatenateWithStreams env fs c output =
      (fst (deleteConcatenateList env
              (fst (Run env line (fst (saveConcatenateList env fs c)))) c),
       match snd (Run env line (fst (saveConcatenateList env fs c))) with
       | Some e => Err ("cinema.Video.Concatenate: ffmpeg failed: " +:+ e)
       | None => Ok tt
       end).
Proof.
  intros Hv. unfold ConcatenateWithStreams, ClipM.CommandLine. rewrite Hv.
  eexists. split; [reflexivity|].
  destruct (saveConcatenateList env fs c) as [fs1 e1]. simpl.
  destruct (Run env _ fs1) as [fs' err]. simpl.
  destruct err; simpl;
    destruct (deleteConcatenateList env fs' c) as [fs2 e2]; reflexivity.
Qed.

Lemma saveConcatenateList_writes env (fs : FS) c :
  CreateErr env (concatListCache c) = None ->
  (forall data, WriteErr env (concatListCache c) data = None) ->
  saveConcatenateList env fs c =
  (<[concatListCache c :=
       String.concat ""
         (map (fun video => manifestLine (path_filepath.Base video))
              (videosPath c))]> fs,
   None).
Proof.
  intros HC HW. unfold saveConcatenateList. rewrite HC.
  now rewrite (writeLines_appends env _ _ fs "" HW).
Qed.

(** The manifest of a Clip built by NewClip is the file [concat.txt] in
    the directory of the first member. *)
Lemma NewClip_manifest_dir env first rest c :
  NewClip env (first :: rest) = Ok c ->
  path_filepath.Dir (concatListCache c) = path_filepath.Dir first /\
  path_filepath.Base (concatListCache c) = "concat.txt".
Proof.
  intros H. destruct (NewClip_Ok _ _ _ H) as (f & r & E & _ & ->).
  injection E as <- <-. now apply Join_Dir_name.
Qed.

Lemma noNewline_app a b :
  noNewline (a +:+ b) = noNewline a && noNewline b.
Proof.
  induction a as [|x a IH]; [reflexivity|].
  rewrite append_cons. simpl. rewrite IH. now rewrite andb_assoc.
Qed.

(** A text that starts with a line without newline, then a newline. *)
Lemma lines_first l rest :
  noNewline l = true ->
  lines (l +:+ String newlineChar rest) = l :: lines rest.
Proof.
  induction l as [|x l IH]; intros H.
  - reflexivity.
  - simpl in H. apply andb_true_iff in H as [Hx Hl].
    apply negb_true_iff in Hx.
    rewrite append_cons. simpl. rewrite Hx. now rewrite (IH Hl).
Qed.

(** Newline-terminated lines are read back one by one. *)
Lemma lines_terminated (ls : list string) :
  Forall (fun l => noNewline l = true) ls ->
  lines (String.concat "" (map (fun l => l +:+ String newlineChar "") ls))
  = ls.
Proof.
  induction 1 as [|l ls Hl _ IH]; [reflexivity|].
  cbn [map]. rewrite concat_empty_sep_cons, append_assoc.
  change (String newlineChar "" +:+ ?r) with (String newlineChar r).
  now rewrite (lines_first l _ Hl), IH.
Qed.

(** C8, as stated, fails: the base name of a member is written as it is,
    so a newline in it splits the entry over two lines of the manifest. *)
Lemma manifest_line_split_by_newline :
  ~ (forall env (fs : FS) videoPath c output,
       videoPath <> [] ->
       NewClip env videoPath = Ok c ->
       CreateErr env (concatListCache c) = None ->
       (forall data, WriteErr env (concatListCache c) data = None) ->
       (exists content,
          fst (saveConcatenateList env fs c) !! concatListCache c
            = Some content /\
          lines content =
            map (fun video => "file '" +:+ path_filepath.Base video +:+ "'")
                videoPath) /\
       fst (Concatenate env fs c output) !! concatListCache c = None).
Proof.
  intros H.
  destruct (H sample_env ∅ newline_paths
              {| videosPath := newline_paths;
                 concatListCache := "clips/concat.txt" |} "all.mov")
    as ((content & Hc & Hl) & _).
  - discriminate.
  - reflexivity.
  - reflexivity.
  - reflexivity.
  - vm_compute in Hc. injection Hc as <-.
    vm_compute in Hl. discriminate Hl.
Qed.

(** The same claim also fails when the system refuses the removal: the
    deferred call drops the error and the manifest stays. *)
Example manifest_left_behind :
  Concatenate env_no_remove ∅ sample_clip "all.mov"
  = ({[ "clips/concat.txt" :=
          "file 'a.mov'" +:+ String newlineChar
            ("file 'b.mov'" +:+ String newlineChar "") ]},
     Ok tt).
Proof.
  unfold Concatenate, ConcatenateWithStreams, saveConcatenateList,
    deleteConcatenateList. simpl.
  unfold Fprintf. simpl.
  rewrite !alter_insert_eq. rewrite insert_empty. reflexivity.
Qed.

(** C8, amended.  For a Clip built by NewClip from a non-empty list, on a
    system that lets the manifest be created and written: the manifest is
    a file in the directory of the first member; saveConcatenateList fills
    it with [file '<basename>'] followed by a newline for each member, in
    list order, and nothing else, which is one line per member when no
    base name contains a newline; ffmpeg is run with that file in place;
    the deferred removal runs however ffmpeg ends, so that the manifest is
    gone when Concatenate returns if the system lets it be removed, and
    stays as ffmpeg left it, with the error dropped, if not. *)
Theorem Concatenate_manifest env (fs : FS) videoPath c output :
  videoPath <> [] ->
  NewClip env videoPath = Ok c ->
  CreateErr env (concatListCache c) = None ->
  (forall data, WriteErr env (concatListCache c) data = None) ->
  let manifest := concatListCache c in
  let content :=
    String.concat ""
      (map (fun video =>
              "file '" +:+ path_filepath.Base video +:+ "'"
              +:+ String "010"%char "")
           videoPath) in
  let written := <[manifest := content]> fs in
  (exists first rest,
     videoPath = first :: rest /\
     path_filepath.Dir manifest = path_filepath.Dir first) /\
  saveConcatenateList env fs c = (written, None) /\
  (Forall (fun video => noNewline (path_filepath.Base video) = true)
          videoPath ->
   lines content =
     map (fun video => "file '" +:+ path_filepath.Base video +:+ "'")
         videoPath) /\
  (exists line,
     ClipM.CommandLine c output = Ok line /\
     snd (Concatenate env fs c output) =
       match snd (Run env line written) with
       | Some e => Err ("cinema.Video.Concatenate: ffmpeg failed: " +:+ e)
       | None => Ok tt
       end /\
     (RemoveErr env manifest = None ->
      fst (Concatenate env fs c output)
        = delete manifest (fst (Run env line written)) /\
      fst (Concatenate env fs c output) !! manifest = None) /\
     (forall err, RemoveErr env manifest = Some err ->
      fst (Concatenate env fs c output) = fst (Run env line written))).
Proof.
  intros Hne HN HC HW manifest content written.
  destruct (NewClip_Ok _ _ _ HN) as (first & rest & -> & Hv & Hm).
  assert (Hsave : saveConcatenateList env fs c = (written, None)).
  { rewrite (saveConcatenateList_writes env fs c HC HW), Hv. reflexivity. }
  split; [|split; [|split]].
  - exists first, rest. split; [reflexivity|].
    apply (NewClip_manifest_dir env first rest c HN).
  - exact Hsave.
  - intros Hnl. subst content.
    rewrite <- (lines_terminated
                  (map (fun video =>
                          "file '" +:+ path_filepath.Base video +:+ "'")
                       (first :: rest))).
    + rewrite map_map. f_equal. f_equal. apply map_ext. intros video.
      now rewrite !append_assoc.
    + apply Forall_map. eapply Forall_impl; [exact Hnl|].
      intros video Hb. simpl. now rewrite !noNewline_app, Hb.
  - destruct (ConcatenateWithStreams_steps env fs c first rest output Hv)
      as (line & HL & HS).
    exists line. split; [exact HL|].
    unfold Concatenate. rewrite HS, Hsave. simpl.
    rewrite deleteConcatenateList_files. fold manifest.
    split; [reflexivity|]. split.
    + intros HR. rewrite HR. split; [reflexivity|apply lookup_delete_eq].
    + intros err HR. now rewrite HR.
Qed.

Lemma Concatenate_manifest_witness :
  sample_paths <> [] /\
  NewClip sample_env sample_paths = Ok sample_clip /\
  saveConcatenateList sample_env ∅ sample_clip
    = ({[ "clips/concat.txt" :=
            "file 'a.mov'" +:+ String "010"%char
              ("file 'b.mov'" +:+ String "010"%char "") ]}, None) /\
  lines ("file 'a.mov'" +:+ String "010"%char
           ("file 'b.mov'" +:+ String "010"%char ""))
    = ["file 'a.mov'"; "file 'b.mov'"] /\
  fst (Concatenate sample_env ∅ sample_clip "all.mov") !! "clips/concat.txt"
    = None.
Proof.
  assert (Hne : sample_paths <> []) by discriminate.
  assert (HN : NewClip sample_env sample_paths = Ok sample_clip)
    by reflexivity.
  split; [exact Hne|]. split; [exact HN|].
  destruct (Concatenate_manifest sample_env ∅ sample_paths sample_clip
              "all.mov" Hne HN eq_refl (fun _ => eq_refl))
    as (_ & Hsave & Hlines & line & _ & _ & Hgone & _).
  split; [exact Hsave|]. split.
  - apply Hlines. repeat constructor.
  - exact (proj2 (Hgone eq_refl)).
Defined.

(** C7.  The error of saveConcatenateList is dropped by
    ConcatenateWithStreams: here the manifest cannot be created, ffmpeg
    reads the stale file and exits with status 0, and the call reports
    success. *)
Theorem Concatenate_drops_manifest_error :
  saveConcatenateList stale_env stale_fs sample_clip
    = (stale_fs, Some "open clips/concat.txt: permission denied") /\
  ConcatenateWithStreams stale_env stale_fs sample_clip "all.mov"
    = (∅, Ok tt).
Proof.
  split; [reflexivity|].
  unfold ConcatenateWithStreams, saveConcatenateList, deleteConcatenateList.
  simpl. unfold stale_fs.
  rewrite lookup_singleton_eq, delete_singleton_eq. reflexivity.
Qed.

(** What is returned is decided by ffmpeg alone: an error exactly when
    the process fails, whatever happened to the manifest. *)
Lemma Concatenate_result env (fs : FS) c first rest output :
  videosPath c = first :: rest ->
  exists line (fs1 : FS),
    ClipM.CommandLine c output = Ok line /\
    fs1 = fst (saveConcatenateList env fs c) /\
    snd (ConcatenateWithStreams env fs c output) =
      match snd (Run env line fs1) with
      | Some e => Err ("cinema.Video.Concatenate: ffmpeg failed: " +:+ e)
      | None => Ok tt
      end.
Proof.
  intros Hv.
  destruct (ConcatenateWithStreams_steps env fs c first rest output Hv)
    as (line & HL & HS).
  exists line, (fst (saveConcatenateList env fs c)).
  split; [exact HL|]. split; [reflexivity|]. now rewrite HS.
Qed.

(** ** The output path of a concatenation *)


Example output_with_directory :
  ClipM.CommandLine sample_clip "sub/all.mov"
  = Ok ["ffmpeg"; "-y"; "-f"; "concat"; "-i"; "clips/concat.txt";
        "-c"; "copy"; "-fflags"; "+genpts"; "clips/sub/all.mov"].
Proof. reflexivity. Qed.

Example output_with_parent_directory :
  ClipM.CommandLine sample_clip "../all.mov"
  = Ok ["ffmpeg"; "-y"; "-f"; "concat"; "-i"; "clips/concat.txt";
        "-c"; "copy"; "-fflags"; "+genpts"; "all.mov"].
Proof. reflexivity. Qed.



(** ** The path functions on the cases of Go's own tests *)

Example Clean_cases :
  map path_filepath.Clean
    ["abc"; "abc/def"; "a/b/c"; "."; ".."; "../.."; "../../abc"; "/abc"; "/";
     ""; "abc/"; "abc/def/"; "./"; "../"; "../../"; "/abc/";
     "abc//def//ghi"; "abc//"; "abc/./def"; "/./abc/def"; "abc/.";
     "abc/def/ghi/../jkl"; "abc/def/../ghi/../jkl"; "abc/def/..";
     "abc/def/../.."; "/abc/def/../.."; "abc/def/../../..";
     "/abc/def/../../.."; "abc/def/../../../ghi/jkl/../../../mno";
     "/../abc"; "abc/./../def"; "abc//./../def"; "abc/../../././../def"]
  = ["abc"; "abc/def"; "a/b/c"; "."; ".."; "../.."; "../../abc"; "/abc"; "/";
     "."; "abc"; "abc/def"; "."; ".."; "../.."; "/abc";
     "abc/def/ghi"; "abc"; "abc/def"; "/abc/def"; "abc";
     "abc/def/jkl"; "abc/jkl"; "abc";
     "."; "/"; "..";
     "/"; "../../mno";
     "/abc"; "def"; "def"; "../../def"].
Proof. reflexivity. Qed.

Example Dir_cases :
  map path_filepath.Dir
    [""; "."; "/."; "/"; "////"; "/foo"; "x/"; "abc"; "abc/def"; "a/b/.x";
     "a/b/c."; "a/b/c.x"]
  = ["."; "."; "/"; "/"; "/"; "/"; "x"; "."; "abc"; "a/b"; "a/b"; "a/b"].
Proof. reflexivity. Qed.

Example Base_cases :
  map path_filepath.Base
    [""; "."; "/."; "/"; "////"; "x/"; "abc"; "abc/def"; "a/b/.x"; "a/b/c.";
     "a/b/c.x"]
  = ["."; "."; "."; "/"; "/"; "x"; "abc"; "def"; ".x"; "c."; "c.x"].
Proof. reflexivity. Qed.

Example Join_cases :
  map path_filepath.Join
    [[]; [""]; ["/"]; ["a"]; ["a"; "b"]; ["a"; ""]; [""; "b"]; ["/"; "a"];
     ["/"; "a/b"]; ["/"; ""]; ["/a"; "b"]; ["a"; "/b"]; ["/a/"; "b"];
     ["/a/"; "/b"]; ["//"; "a"]; [""; ""]]
  = [""; ""; "/"; "a"; "a/b"; "a"; "b"; "/a";
     "/a/b"; "/"; "/a/b"; "a/b"; "/a/b";
     "/a/b"; "/a"; ""].
Proof. reflexivity. Qed.

(** * Further properties of the package *)

(** ** Trim points *)

(** Case analysis on every comparison of the goal. *)
Ltac cases_on_comparisons :=
  repeat match goal with
         | |- context [?a <? ?b] => destruct (Z.ltb_spec a b)
         | |- context [?a >? ?b] => destruct (Z.gtb_spec a b)
         | |- context [?a <=? ?b] => destruct (Z.leb_spec a b)
         end.

Lemma clampToDuration_idem v t :
  clampToDuration v (clampToDuration v t) = clampToDuration v t.
Proof.
  unfold clampToDuration.
  destruct (Z.ltb_spec t 0).
  - destruct (Z.gtb_spec 0 (duration v)); cases_on_comparisons; lia.
  - destruct (Z.gtb_spec t (duration v)); cases_on_comparisons; lia.
Qed.

Lemma clampToDuration_mono v s e :
  s <= e -> clampToDuration v s <= clampToDuration v e.
Proof.
  intros H. unfold clampToDuration.
  destruct (Z.ltb_spec s 0); destruct (Z.ltb_spec e 0);
    cases_on_comparisons; lia.
Qed.

(** SetEnd is the mirror image of SetStart. *)
Theorem SetEnd_clamps v t :
  0 <= duration v ->
  let c := Z.max 0 (Z.min t (duration v)) in
  end_ (SetEnd v t) = c /\
  (c < start v -> start (SetEnd v t) = c) /\
  (start v <= c -> start (SetEnd v t) = start v).
Proof.
  intros Hd c. subst c. rewrite <- (clampToDuration_max_min v t Hd).
  unfold SetEnd; simpl.
  destruct (Z.ltb_spec (clampToDuration v t) (start v)); repeat split; lia.
Qed.

Lemma SetEnd_clamps_witness :
  0 <= duration (SetStart sample_video 30000000000) /\
  end_ (SetEnd (SetStart sample_video 30000000000) (-7)) = 0 /\
  start (SetEnd (SetStart sample_video 30000000000) (-7)) = 0.
Proof.
  assert (Hd : 0 <= duration (SetStart sample_video 30000000000))
    by (vm_compute; discriminate).
  split; [exact Hd|].
  destruct (SetEnd_clamps (SetStart sample_video 30000000000) (-7) Hd)
    as (He & Hs & _).
  split; [exact He|]. apply Hs. vm_compute. reflexivity.
Defined.

(** A Trim with an ordered range forgets the previous trim points. *)
Lemma Trim_ordered v s e :
  s <= e ->
  Trim v s e =
  mkVideo (filepath v) (width v) (height v) (fps v) (bitrate v)
          (clampToDuration v s) (clampToDuration v e) (duration v)
          (filters v) (additionalArgs v).
Proof.
  intros H. pose proof (clampToDuration_mono v s e H) as Hm.
  unfold Trim. destruct (Z.leb_spec s e); [|lia].
  unfold SetEnd, SetStart; simpl.
  change (clampToDuration
            (mkVideo (filepath v) (width v) (height v) (fps v) (bitrate v)
               (clampToDuration v s)
               (if clampToDuration v s >? end_ v
                then clampToDuration v s else end_ v)
               (duration v) (filters v) (additionalArgs v)) e)
    with (clampToDuration v e).
  destruct (Z.ltb_spec (clampToDuration v e) (clampToDuration v s));
    [lia|reflexivity].
Qed.

(** Trim with start <= end sets both trim points to the clamped
    arguments, whatever they were before, and touches nothing else. *)
Theorem Trim_sets_both v s e :
  0 <= duration v -> s <= e ->
  Trim v s e =
  mkVideo (filepath v) (width v) (height v) (fps v) (bitrate v)
          (Z.max 0 (Z.min s (duration v)))
          (Z.max 0 (Z.min e (duration v)))
          (duration v) (filters v) (additionalArgs v).
Proof.
  intros Hd H. rewrite (Trim_ordered v s e H).
  now rewrite !clampToDuration_max_min by exact Hd.
Qed.

Lemma Trim_sets_both_witness :
  0 <= duration sample_video /\ -5 <= 90000000000 /\
  start (Trim sample_video (-5) 90000000000) = 0 /\
  end_ (Trim sample_video (-5) 90000000000) = 60000000000.
Proof.
  assert (Hd : 0 <= duration sample_video) by (vm_compute; discriminate).
  assert (H : -5 <= 90000000000) by (vm_compute; discriminate).
  split; [exact Hd|]. split; [exact H|].
  rewrite (Trim_sets_both sample_video (-5) 90000000000 Hd H).
  split; reflexivity.
Defined.

(** A later Trim with an ordered range overrides an earlier Trim
    completely: the earlier call leaves no trace. *)
Theorem Trim_overrides v s e s' e' :
  s' <= e' -> Trim (Trim v s e) s' e' = Trim v s' e'.
Proof.
  intros H. rewrite (Trim_ordered _ s' e' H), (Trim_ordered v s' e' H).
  unfold Trim. destruct (s <=? e); reflexivity.
Qed.

Lemma Trim_overrides_witness :
  42000000000 <= 48000000000 /\
  Trim (Trim sample_video 10000000000 20000000000) 42000000000 48000000000
  = Trim sample_video 42000000000 48000000000.
Proof.
  assert (H : 42000000000 <= 48000000000) by (vm_compute; discriminate).
  split; [exact H|].
  exact (Trim_overrides sample_video 10000000000 20000000000 _ _ H).
Defined.

(** With start <= end the two setters can be called in either order and
    both orders are what Trim does. *)
Theorem setters_commute_when_ordered v s e :
  s <= e ->
  SetStart (SetEnd v e) s = SetEnd (SetStart v s) e /\
  SetEnd (SetStart v s) e = Trim v s e.
Proof.
  intros H. pose proof (clampToDuration_mono v s e H) as Hm.
  assert (HT : SetEnd (SetStart v s) e = Trim v s e).
  { unfold Trim. destruct (Z.leb_spec s e); [reflexivity|lia]. }
  split; [|exact HT]. rewrite HT, (Trim_ordered v s e H).
  unfold SetStart, SetEnd; simpl.
  change (clampToDuration
            (mkVideo (filepath v) (width v) (height v) (fps v) (bitrate v)
               (if clampToDuration v e <? start v
                then clampToDuration v e else start v)
               (clampToDuration v e)
               (duration v) (filters v) (additionalArgs v)) s)
    with (clampToDuration v s).
  destruct (Z.gtb_spec (clampToDuration v s) (clampToDuration v e));
    [lia|reflexivity].
Qed.

Lemma setters_commute_when_ordered_witness :
  1000000000 <= 9000000000 /\
  SetStart (SetEnd sample_video 9000000000) 1000000000
  = SetEnd (SetStart sample_video 1000000000) 9000000000.
Proof.
  assert (H : 1000000000 <= 9000000000) by (vm_compute; discriminate).
  split; [exact H|].
  exact (proj1 (setters_commute_when_ordered sample_video _ _ H)).
Defined.

(** With start > end the setter called last wins: both trim points end
    up at its clamped argument, so the two orders differ. *)
Theorem last_setter_wins v s e :
  s > e ->
  (start (SetEnd (SetStart v s) e) = clampToDuration v e /\
   end_ (SetEnd (SetStart v s) e) = clampToDuration v e) /\
  (start (SetStart (SetEnd v e) s) = clampToDuration v s /\
   end_ (SetStart (SetEnd v e) s) = clampToDuration v s).
Proof.
  intros H.
  assert (Hm : clampToDuration v e <= clampToDuration v s)
    by (apply clampToDuration_mono; lia).
  unfold SetStart, SetEnd; simpl.
  change (clampToDuration
            (mkVideo (filepath v) (width v) (height v) (fps v) (bitrate v)
               (clampToDuration v s)
               (if clampToDuration v s >? end_ v
                then clampToDuration v s else end_ v)
               (duration v) (filters v) (additionalArgs v)) e)
    with (clampToDuration v e).
  change (clampToDuration
            (mkVideo (filepath v) (width v) (height v) (fps v) (bitrate v)
               (if clampToDuration v e <? start v
                then clampToDuration v e else start v)
               (clampToDuration v e)
               (duration v) (filters v) (additionalArgs v)) s)
    with (clampToDuration v s).
  repeat split; cases_on_comparisons; lia.
Qed.

Lemma last_setter_wins_witness :
  20000000000 > 10000000000 /\
  start (SetEnd (SetStart sample_video 20000000000) 10000000000)
    = 10000000000 /\
  start (SetStart (SetEnd sample_video 10000000000) 20000000000)
    = 20000000000.
Proof.
  assert (H : 20000000000 > 10000000000) by (vm_compute; reflexivity).
  split; [exact H|].
  destruct (last_setter_wins sample_video _ _ H) as ((H1 & _) & (H2 & _)).
  split; [exact H1|exact H2].
Defined.

(** Calling a setter of the trim points, the frame rate or the bit rate
    twice with the same arguments is the same as calling it once. *)
Theorem setters_idempotent v :
  (forall t, SetStart (SetStart v t) t = SetStart v t) /\
  (forall t, SetEnd (SetEnd v t) t = SetEnd v t) /\
  (forall s e, Trim (Trim v s e) s e = Trim v s e) /\
  (forall f, SetFPS (SetFPS v f) f = SetFPS v f) /\
  (forall b, SetBitrate (SetBitrate v b) b = SetBitrate v b).
Proof.
  split; [|split; [|split; [|split]]].
  - intros t. unfold SetStart; simpl.
    change (clampToDuration (mkVideo _ _ _ _ _ _ _ (duration v) _ _) t)
      with (clampToDuration v t).
    cases_on_comparisons; try reflexivity; lia.
  - intros t. unfold SetEnd; simpl.
    change (clampToDuration (mkVideo _ _ _ _ _ _ _ (duration v) _ _) t)
      with (clampToDuration v t).
    cases_on_comparisons; try reflexivity; lia.
  - intros s e. destruct (Z.leb_spec s e) as [H|H].
    + now apply Trim_overrides.
    + unfold Trim. destruct (Z.leb_spec s e); [lia|reflexivity].
  - reflexivity.
  - reflexivity.
Qed.

(** SetSize, Crop and Mute are not: a repeated call appends its
    fragment or flag once more, so it never leaves the Video as it was. *)
Theorem appending_edits_accumulate v :
  (forall w h,
     filters (SetSize (SetSize v w h) w h)
       = filters v ++ [scaleFilter w h; scaleFilter w h] /\
     SetSize (SetSize v w h) w h <> SetSize v w h) /\
  (forall x y w h,
     filters (Crop (Crop v x y w h) x y w h)
       = filters v ++ [cropFilter x y w h; cropFilter x y w h] /\
     Crop (Crop v x y w h) x y w h <> Crop v x y w h) /\
  additionalArgs (Mute (Mute v)) = additionalArgs v ++ ["-an"; "-an"] /\
  Mute (Mute v) <> Mute v.
Proof.
  split; [|split; [|split]].
  - intros w h. split; [simpl; now rewrite <- app_assoc|].
    intros H. apply (f_equal (fun v => length (filters v))) in H.
    simpl in H. rewrite !length_app in H. simpl in H. lia.
  - intros x y w h. split; [simpl; now rewrite <- app_assoc|].
    intros H. apply (f_equal (fun v => length (filters v))) in H.
    simpl in H. rewrite !length_app in H. simpl in H. lia.
  - simpl. now rewrite <- app_assoc.
  - intros H. apply (f_equal (fun v => length (additionalArgs v))) in H.
    simpl in H. rewrite !length_app in H. simpl in H. lia.
Qed.

Lemma after_edits_duration es : forall v,
  duration (after_edits v es) = duration v.
Proof.
  unfold after_edits.
  induction es as [|e es IH]; intros v; [reflexivity|]. simpl.
  now rewrite IH, apply_edit_duration.
Qed.

(** No sequence of edits changes the input path or the duration of the
    source: trim points stay relative to the original video. *)
Theorem edits_keep_source v (es : list edit) :
  filepath (after_edits v es) = filepath v /\
  duration (after_edits v es) = duration v.
Proof.
  unfold after_edits. revert v.
  induction es as [|e es IH]; intros v; [auto|]. simpl.
  destruct (IH (apply_edit v e)) as [-> ->].
  split; [|apply apply_edit_duration].
  destruct e; simpl; try reflexivity.
  unfold Trim. destruct (_ <=? _); reflexivity.
Qed.

Lemma after_edits_trim_ok es : forall v,
  trim_ok v -> trim_ok (after_edits v es).
Proof.
  unfold after_edits.
  induction es as [|e es IH]; intros v Hv; [exact Hv|].
  simpl. apply IH, apply_edit_trim_ok, Hv.
Qed.

(** After any sequence of edits on a loaded Video the [-ss] and [-t]
    arguments are computed from a start and a length that are not
    negative and fit in the source; the 64-bit subtraction never wraps. *)
Theorem trimmed_length_in_range env path v (es : list edit) :
  Load env path = inr v ->
  0 <= duration v < 2 ^ 63 ->
  let v' := after_edits v es in
  0 <= start v' <= duration v /\
  sub64 (end_ v') (start v') = end_ v' - start v' /\
  0 <= end_ v' - start v' <= duration v.
Proof.
  intros HL Hd v'.
  destruct (Load_untrimmed _ _ _ HL) as [Hs He].
  assert (Hv : trim_ok v) by (unfold trim_ok; lia).
  pose proof (after_edits_trim_ok es v Hv) as Hv'. fold v' in Hv'.
  pose proof (after_edits_duration es v) as Hdur. fold v' in Hdur.
  destruct Hv' as (H0 & H1 & H2). rewrite Hdur in H2.
  split; [lia|]. split; [|lia].
  unfold sub64, wrap64. rewrite Z.mod_small; lia.
Qed.

Lemma trimmed_length_in_range_witness :
  Load sample_env "in.mp4" = inr sample_video /\
  0 <= duration sample_video < 2 ^ 63 /\
  sub64
    (end_ (after_edits sample_video [ESetEnd 5; ESetStart 90000000000]))
    (start (after_edits sample_video [ESetEnd 5; ESetStart 90000000000]))
  = 0.
Proof.
  assert (HL : Load sample_env "in.mp4" = inr sample_video) by reflexivity.
  assert (Hd : 0 <= duration sample_video < 2 ^ 63)
    by (vm_compute; split; [discriminate|reflexivity]).
  split; [exact HL|]. split; [exact Hd|].
  destruct (trimmed_length_in_range sample_env "in.mp4" sample_video
              [ESetEnd 5; ESetStart 90000000000] HL Hd) as (_ & -> & _).
  reflexivity.
Defined.

(** ** Load *)

Lemma dsIndex_from_spec streams : forall index,
  (dsIndex_from index streams = 0%nat /\
   Forall (fun s => Width s = 0 \/ Height s = 0) streams) \/
  (exists k s,
     dsIndex_from index streams = (index + k)%nat /\
     streams !! k = Some s /\
     Width s <> 0 /\ Height s <> 0 /\
     Forall (fun s => Width s = 0 \/ Height s = 0) (take k streams)).
Proof.
  induction streams as [|v rest IH]; intros index.
  - left. split; [reflexivity|constructor].
  - simpl.
    destruct (Z.eqb_spec (Width v) 0) as [Hw|Hw]; simpl.
    + destruct (IH (S index)) as [[E F]|(k & s & E & L & W & H & F)].
      * left. split; [exact E|]. constructor; auto.
      * right. exists (S k), s. rewrite E.
        split; [lia|]. split; [exact L|]. split; [exact W|].
        split; [exact H|]. simpl. constructor; auto.
    + destruct (Z.eqb_spec (Height v) 0) as [Hh|Hh]; simpl.
      * destruct (IH (S index)) as [[E F]|(k & s & E & L & W & H & F)].
        -- left. split; [exact E|]. constructor; auto.
        -- right. exists (S k), s. rewrite E.
           split; [lia|]. split; [exact L|]. split; [exact W|].
           split; [exact H|]. simpl. constructor; auto.
      * right. exists 0%nat, v.
        split; [lia|]. split; [reflexivity|]. split; [exact Hw|].
        split; [exact Hh|]. constructor.
Qed.

(** Stream selection: the selected stream is the first one whose width
    and height are both non-zero; when no stream has both, it is stream
    0. *)
Theorem dsIndex_first_sized (streams : list stream) :
  (dsIndex streams = 0%nat /\
   Forall (fun s => Width s = 0 \/ Height s = 0) streams) \/
  (exists s,
     streams !! dsIndex streams = Some s /\
     Width s <> 0 /\ Height s <> 0 /\
     Forall (fun s => Width s = 0 \/ Height s = 0)
            (take (dsIndex streams) streams)).
Proof.
  unfold dsIndex.
  destruct (dsIndex_from_spec streams 0) as [H|(k & s & E & L & W & H & F)].
  - left. exact H.
  - right. exists s. rewrite E. simpl. auto.
Qed.

Lemma dsIndex_lookup s0 (rest : list stream) :
  (s0 :: rest) !! dsIndex (s0 :: rest)
  = Some (nth (dsIndex (s0 :: rest)) (s0 :: rest) s0).
Proof.
  unfold dsIndex.
  destruct (dsIndex_from_spec (s0 :: rest) 0)
    as [[E _]|(k & s & E & L & _)].
  - rewrite E. reflexivity.
  - rewrite E. simpl (0 + k)%nat. rewrite L. f_equal. symmetry.
    now apply nth_lookup_Some with (d := s0) in L.
Qed.

(** Load returns a Video exactly when every step up to the rotation
    succeeds, and the Video is then fully determined by the report: the
    path as given, the dimensions of the selected stream (swapped by the
    rotation), 30 frames per second, the probed bit rate, the whole
    duration selected, no filter and no additional argument. *)
Theorem Load_succeeds_iff env path v :
  Load env path = inr v <->
  exists ffprobe out desc s d b wh,
    LookPath env "ffprobe" = inr ffprobe /\
    Stat env path = None /\
    Output env (ffprobe_argv path) = inr out /\
    Unmarshal env out = inr desc /\
    Streams desc !! dsIndex (Streams desc) = Some s /\
    DurationSec desc = inr d /\
    Bitrate desc = inr b /\
    rotated s = inr wh /\
    v = {| filepath := path; width := fst wh; height := snd wh;
           fps := 30; bitrate := b; start := 0; end_ := d; duration := d;
           filters := []; additionalArgs := [] |}.
Proof.
  split.
  - unfold Load. intros H.
    destruct (LookPath env "ffprobe") as [|ffprobe] eqn:HL; [discriminate|].
    destruct (Stat env path) eqn:HS; [discriminate|].
    destruct (Output env (ffprobe_argv path)) as [|out] eqn:HO;
      [discriminate|].
    destruct (Unmarshal env out) as [|desc] eqn:HU; [discriminate|].
    destruct (Streams desc) as [|s0 rest] eqn:Hst; [discriminate|].
    destruct (DurationSec desc) as [|d] eqn:HD; [discriminate|].
    destruct (Bitrate desc) as [|b] eqn:HB; [discriminate|].
    destruct (rotated (nth (dsIndex (s0 :: rest)) (s0 :: rest) s0))
      as [|wh] eqn:HR; [discriminate|].
    injection H as <-.
    exists ffprobe, out, desc,
      (nth (dsIndex (s0 :: rest)) (s0 :: rest) s0), d, b, wh.
    rewrite HU, Hst, HD, HB, HR.
    repeat split; try reflexivity. apply dsIndex_lookup.
  - intros (ffprobe & out & desc & s & d & b & wh &
            HL & HS & HO & HU & Hs & HD & HB & HR & ->).
    unfold Load. rewrite HL, HS, HO, HU, HD, HB.
    destruct (Streams desc) as [|s0 rest] eqn:Hst; [discriminate Hs|].
    apply nth_lookup_Some with (d := s0) in Hs. rewrite Hs, HR.
    reflexivity.
Qed.

Lemma Load_succeeds_iff_witness :
  Load sample_env "in.mp4"
  = inr {| filepath := "in.mp4"; width := 1920; height := 1080;
           fps := 30; bitrate := 2000000; start := 0;
           end_ := 60000000000; duration := 60000000000;
           filters := []; additionalArgs := [] |}.
Proof.
  apply (proj2 (Load_succeeds_iff sample_env "in.mp4" _)).
  exists "/usr/bin/ffprobe", "{}", portrait_report,
    {| Width := 1080; Height := 1920; Rotation := Some (inr 90) |},
    60000000000, 2000000, (1920, 1080).
  repeat split; reflexivity.
Defined.

(** The search for ffprobe comes first in both constructors: without it
    they fail with the same message whatever their argument is, a missing
    file and an empty list included. *)
Theorem constructors_need_ffprobe env err :
  LookPath env "ffprobe" = inl err ->
  (forall path, Load env path = inl ffprobe_not_found) /\
  (forall videoPath, NewClip env videoPath = Err ffprobe_not_found).
Proof.
  intros H. split.
  - intros path. unfold Load. now rewrite H.
  - intros videoPath. unfold NewClip. now rewrite H.
Qed.

Lemma constructors_need_ffprobe_witness :
  LookPath bare_env "ffprobe"
    = inl "exec: ffprobe: executable file not found in $PATH" /\
  Load bare_env "in.mp4" = inl ffprobe_not_found /\
  NewClip bare_env [] = Err ffprobe_not_found.
Proof.
  assert (H : LookPath bare_env "ffprobe"
              = inl "exec: ffprobe: executable file not found in $PATH")
    by reflexivity.
  split; [exact H|].
  destruct (constructors_need_ffprobe bare_env _ H) as [H1 H2].
  split; [apply H1|apply H2].
Defined.

(** What Load says about a report it cannot use: no stream, a duration
    that is not a number, a bit rate that is not an integer.  The last two
    are reported with the same text. *)
Theorem Load_report_errors env path ffprobe out desc :
  LookPath env "ffprobe" = inr ffprobe ->
  Stat env path = None ->
  Output env (ffprobe_argv path) = inr out ->
  Unmarshal env out = inr desc ->
  (Streams desc = [] ->
   Load env path
   = inl ("cinema.Load: ffprobe does not contain stream " +:+
          "data, make sure the file " +:+ path +:+
          " contains a valid video.")) /\
  (forall e, Streams desc <> [] -> DurationSec desc = inl e ->
   Load env path
   = inl ("cinema.Load: ffprobe returned invalid duration: " +:+ e)) /\
  (forall d e, Streams desc <> [] -> DurationSec desc = inr d ->
   Bitrate desc = inl e ->
   Load env path
   = inl ("cinema.Load: ffprobe returned invalid duration: " +:+ e)).
Proof.
  intros HL HS HO HU. unfold Load. rewrite HL, HS, HO, HU.
  split; [|split].
  - intros ->. reflexivity.
  - intros e Hne HD. destruct (Streams desc); [congruence|].
    now rewrite HD.
  - intros d e Hne HD HB. destruct (Streams desc); [congruence|].
    now rewrite HD, HB.
Qed.

Lemma Load_report_errors_witness :
  Load (env_reporting audio_report) "song.mp3"
  = inl ("cinema.Load: ffprobe returned invalid duration: " +:+
         "strconv.ParseInt: parsing N/A: invalid syntax").
Proof.
  destruct (Load_report_errors (env_reporting audio_report) "song.mp3"
              "/usr/bin/ffprobe" "{}" audio_report
              eq_refl eq_refl eq_refl eq_refl) as (_ & _ & H).
  apply (H 180000000000); [discriminate|reflexivity|reflexivity].
Defined.

(** Rotation: a missing tag leaves the dimensions alone; a tag of [k]
    quarter turns swaps them exactly when [k] is odd; [r] and [-r] are
    treated alike; and since the division truncates, every angle strictly
    between -90 and 90 degrees counts as no rotation. *)
Theorem rotated_symmetric w h :
  rotated (mkStream w h None) = inr (w, h) /\
  (forall k, rotated (mkStream w h (Some (inr (k * 90))))
             = inr (if Z.odd k then (h, w) else (w, h))) /\
  (forall r, rotated (mkStream w h (Some (inr (- r))))
             = rotated (mkStream w h (Some (inr r)))) /\
  (forall r, -90 < r < 90 ->
             rotated (mkStream w h (Some (inr r))) = inr (w, h)).
Proof.
  split; [reflexivity|]. split; [|split].
  - intros k. rewrite (rotated_tag (mkStream w h (Some (inr (k * 90)))) _ eq_refl).
    now rewrite Z.quot_mul by lia.
  - intros r.
    rewrite (rotated_tag (mkStream w h (Some (inr (- r)))) _ eq_refl).
    rewrite (rotated_tag (mkStream w h (Some (inr r))) _ eq_refl).
    now rewrite Z.quot_opp_l, Z.odd_opp by lia.
  - intros r Hr.
    rewrite (rotated_tag (mkStream w h (Some (inr r))) _ eq_refl).
    assert (E : Z.quot r 90 = 0).
    { destruct (Z.le_gt_cases 0 r).
      - apply Z.quot_small. lia.
      - rewrite <- (Z.opp_involutive r), Z.quot_opp_l by lia.
        rewrite Z.quot_small; lia. }
    now rewrite E.
Qed.

Lemma rotated_symmetric_witness :
  -90 < -89 < 90 /\
  rotated (mkStream 1080 1920 (Some (inr (-89)))) = inr (1080, 1920).
Proof.
  assert (H : -90 < -89 < 90) by (vm_compute; split; reflexivity).
  split; [exact H|].
  destruct (rotated_symmetric 1080 1920) as (_ & _ & _ & H4).
  exact (H4 (-89) H).
Defined.

(** ** NewClip *)

Lemma statAll_None env videoPath :
  statAll env videoPath = None <->
  Forall (fun path => Stat env path = None) videoPath.
Proof.
  induction videoPath as [|p rest IH]; simpl.
  - split; [constructor|reflexivity].
  - destruct (Stat env p) eqn:E.
    + split; [discriminate|]. intros H. inversion H; congruence.
    + rewrite IH. split; [constructor; assumption|].
      intros H. now inversion H.
Qed.

Lemma statAll_first_missing env good bad rest err :
  Forall (fun path => Stat env path = None) good ->
  Stat env bad = Some err ->
  statAll env (good ++ bad :: rest) = Some err.
Proof.
  intros Hg Hb. induction Hg as [|p good Hp _ IH]; simpl.
  - now rewrite Hb.
  - now rewrite Hp.
Qed.

(** NewClip returns a Clip exactly when ffprobe is found, every listed
    file exists and the list is not empty; the Clip then holds the list as
    given and the manifest path [concat.txt] in the directory of the first
    file. *)
Theorem NewClip_succeeds_iff env videoPath c :
  NewClip env videoPath = Ok c <->
  (exists ffprobe, LookPath env "ffprobe" = inr ffprobe) /\
  Forall (fun path => Stat env path = None) videoPath /\
  exists first rest,
    videoPath = first :: rest /\
    c = {| videosPath := videoPath;
           concatListCache :=
             path_filepath.Join [path_filepath.Dir first; "concat.txt"] |}.
Proof.
  unfold NewClip. split.
  - intros H.
    destruct (LookPath env "ffprobe") as [|ffprobe]; [discriminate|].
    destruct (statAll env videoPath) eqn:ES; [discriminate|].
    destruct videoPath as [|first rest]; [discriminate|].
    injection H as <-.
    split; [eauto|]. split; [now apply statAll_None|]. eauto.
  - intros ((ffprobe & HL) & HS & first & rest & -> & ->).
    rewrite HL. apply statAll_None in HS. now rewrite HS.
Qed.

Lemma NewClip_succeeds_iff_witness :
  NewClip sample_env sample_paths = Ok sample_clip.
Proof.
  apply (proj2 (NewClip_succeeds_iff sample_env sample_paths sample_clip)).
  split; [exists "/usr/bin/ffprobe"; reflexivity|].
  split; [repeat constructor|].
  exists "clips/a.mov", ["clips/b.mov"]. split; reflexivity.
Defined.

(** NewClip checks the files in list order and stops at the first one
    that is missing: its error is the one returned, under the prefix of
    Load. *)
Theorem NewClip_first_missing env ffprobe good bad rest err :
  LookPath env "ffprobe" = inr ffprobe ->
  Forall (fun path => Stat env path = None) good ->
  Stat env bad = Some err ->
  NewClip env (good ++ bad :: rest)
  = Err ("cinema.Load: unable to load file: " +:+ err).
Proof.
  intros HL Hg Hb. unfold NewClip.
  now rewrite HL, (statAll_first_missing env good bad rest err Hg Hb).
Qed.

Lemma NewClip_first_missing_witness :
  NewClip env_missing_b ["clips/a.mov"; "clips/b.mov"; "clips/c.mov"]
  = Err ("cinema.Load: unable to load file: " +:+
         "stat clips/b.mov: no such file or directory").
Proof.
  apply (NewClip_first_missing env_missing_b "/usr/bin/ffprobe"
           ["clips/a.mov"] "clips/b.mov" ["clips/c.mov"]).
  - reflexivity.
  - repeat constructor.
  - reflexivity.
Defined.

(** ** Concatenation *)

(** For a Clip built by NewClip and a plain output name, the manifest
    passed with [-i] and the output file are in the same directory. *)
Theorem output_beside_manifest env videoPath c output :
  NewClip env videoPath = Ok c ->
  plainName output = true ->
  exists line out,
    ClipM.CommandLine c output = Ok line /\
    line !! 5%nat = Some (concatListCache c) /\
    last line = Some out /\
    path_filepath.Dir out = path_filepath.Dir (concatListCache c).
Proof.
  intros HN Hp.
  destruct (NewClip_Ok _ _ _ HN) as (first & rest & -> & Hv & Hm).
  unfold ClipM.CommandLine. rewrite Hv.
  eexists. eexists. split; [reflexivity|].
  split; [reflexivity|]. split; [reflexivity|].
  rewrite Hm.
  rewrite (proj1 (Join_Dir_name first output Hp)).
  now rewrite (proj1 (Join_Dir_name first "concat.txt" eq_refl)).
Qed.

Lemma output_beside_manifest_witness :
  NewClip sample_env sample_paths = Ok sample_clip /\
  plainName "all.mov" = true /\
  exists line out,
    ClipM.CommandLine sample_clip "all.mov" = Ok line /\
    line !! 5%nat = Some (concatListCache sample_clip) /\
    last line = Some out /\
    path_filepath.Dir out = path_filepath.Dir (concatListCache sample_clip).
Proof.
  assert (HN : NewClip sample_env sample_paths = Ok sample_clip)
    by reflexivity.
  assert (Hp : plainName "all.mov" = true) by reflexivity.
  split; [exact HN|]. split; [exact Hp|].
  exact (output_beside_manifest sample_env sample_paths sample_clip
           "all.mov" HN Hp).
Defined.

(** The output name [concat.txt] collides with the manifest: the command
    writes its output over the manifest, and when the system lets the
    deferred call remove that file, no output is left whatever ffmpeg
    did. *)
Theorem output_named_like_manifest env (fs : FS) videoPath c :
  NewClip env videoPath = Ok c ->
  RemoveErr env (concatListCache c) = None ->
  exists line,
    ClipM.CommandLine c "concat.txt" = Ok line /\
    last line = Some (concatListCache c) /\
    fst (Concatenate env fs c "concat.txt") !! concatListCache c = None.
Proof.
  intros HN HR.
  destruct (NewClip_Ok _ _ _ HN) as (first & rest & -> & Hv & Hm).
  unfold ClipM.CommandLine. rewrite Hv.
  eexists. split; [reflexivity|]. split.
  - rewrite Hm. reflexivity.
  - now apply Concatenate_removes_manifest.
Qed.

Lemma output_named_like_manifest_witness :
  NewClip sample_env sample_paths = Ok sample_clip /\
  RemoveErr sample_env (concatListCache sample_clip) = None /\
  fst (Concatenate sample_env ∅ sample_clip "concat.txt")
    !! "clips/concat.txt" = None.
Proof.
  assert (HN : NewClip sample_env sample_paths = Ok sample_clip)
    by reflexivity.
  assert (HR : RemoveErr sample_env (concatListCache sample_clip) = None)
    by reflexivity.
  split; [exact HN|]. split; [exact HR|].
  destruct (output_named_like_manifest sample_env ∅ sample_paths
              sample_clip HN HR) as (line & _ & _ & H).
  exact H.
Defined.

Lemma writeLines_other env path videos : forall (fs : FS) p,
  p <> path -> writeLines env fs path videos !! p = fs !! p.
Proof.
  induction videos as [|video videos IH]; intros fs p Hp; [reflexivity|].
  simpl. unfold Fprintf. destruct (WriteErr env path _).
  - now apply IH.
  - rewrite (IH _ _ Hp). now apply lookup_alter_ne.
Qed.

Lemma saveConcatenateList_other env (fs : FS) c p :
  p <> concatListCache c ->
  fst (saveConcatenateList env fs c) !! p = fs !! p.
Proof.
  intros Hp. unfold saveConcatenateList.
  destruct (CreateErr env (concatListCache c)); [reflexivity|]. simpl.
  rewrite (writeLines_other env _ _ _ p Hp).
  now apply lookup_insert_ne.
Qed.

(** saveConcatenateList touches no file but the manifest; when the
    manifest cannot be created nothing is written at all; and when it can
    be created and written, what the file held before is discarded. *)
Theorem saveConcatenateList_frame env (fs : FS) c :
  (forall p, p <> concatListCache c ->
             fst (saveConcatenateList env fs c) !! p = fs !! p) /\
  (forall err, CreateErr env (concatListCache c) = Some err ->
               saveConcatenateList env fs c = (fs, Some err)) /\
  (CreateErr env (concatListCache c) = None ->
   (forall data, WriteErr env (concatListCache c) data = None) ->
   forall old,
     saveConcatenateList env (<[concatListCache c := old]> fs) c
     = saveConcatenateList env fs c).
Proof.
  split; [|split].
  - intros p Hp. now apply saveConcatenateList_other.
  - intros err H. unfold saveConcatenateList. now rewrite H.
  - intros HC HW old.
    rewrite !(saveConcatenateList_writes env _ c HC HW).
    now rewrite insert_insert_eq.
Qed.

Lemma saveConcatenateList_frame_witness :
  saveConcatenateList stale_env stale_fs sample_clip
    = (stale_fs, Some "open clips/concat.txt: permission denied") /\
  saveConcatenateList sample_env stale_fs sample_clip
    = saveConcatenateList sample_env ∅ sample_clip.
Proof.
  destruct (saveConcatenateList_frame stale_env stale_fs sample_clip)
    as (_ & H2 & _).
  destruct (saveConcatenateList_frame sample_env ∅ sample_clip)
    as (_ & _ & H3).
  split.
  - apply H2. reflexivity.
  - unfold stale_fs. rewrite <- insert_empty.
    apply (H3 eq_refl (fun _ => eq_refl)).
Defined.

(** A Clip without members (the zero value): ConcatenateWithStreams
    creates the manifest and panics when it compiles the command; ffmpeg
    is not run and no other file changes.  The deferred call still runs:
    the manifest is gone if the system lets it be removed, and stays as
    saveConcatenateList left it if not. *)
Theorem Concatenate_without_members env (fs : FS) c output :
  videosPath c = [] ->
  snd (ConcatenateWithStreams env fs c output) = Panic index_out_of_range /\
  (forall p, p <> concatListCache c ->
             fst (ConcatenateWithStreams env fs c output) !! p = fs !! p) /\
  (RemoveErr env (concatListCache c) = None ->
   fst (ConcatenateWithStreams env fs c output) !! concatListCache c
     = None) /\
  (forall err, RemoveErr env (concatListCache c) = Some err ->
   fst (ConcatenateWithStreams env fs c output)
     = fst (saveConcatenateList env fs c)).
Proof.
  intros Hv.
  assert (E : ConcatenateWithStreams env fs c output
              = (fst (deleteConcatenateList env
                        (fst (saveConcatenateList env fs c)) c),
                 Panic index_out_of_range)).
  { unfold ConcatenateWithStreams, ClipM.CommandLine. rewrite Hv.
    destruct (saveConcatenateList env fs c) as [fs1 e1]. simpl.
    destruct (deleteConcatenateList env fs1 c) as [fs2 e2]. reflexivity. }
  rewrite E. simpl. rewrite deleteConcatenateList_files.
  split; [reflexivity|]. split; [|split].
  - intros p Hp.
    pose proof (saveConcatenateList_other env fs c p Hp) as HS.
    destruct (RemoveErr env (concatListCache c)); [exact HS|].
    rewrite lookup_delete_ne by congruence. exact HS.
  - intros HR. rewrite HR. apply lookup_delete_eq.
  - intros err HR. now rewrite HR.
Qed.

Lemma Concatenate_without_members_witness :
  videosPath {| videosPath := []; concatListCache := "" |} = [] /\
  RemoveErr sample_env "" = None /\
  ConcatenateWithStreams sample_env ∅
    {| videosPath := []; concatListCache := "" |} "all.mov"
  = (∅, Panic index_out_of_range).
Proof.
  set (c := {| videosPath := []; concatListCache := "" |}).
  assert (Hv : videosPath c = []) by reflexivity.
  assert (HR : RemoveErr sample_env (concatListCache c) = None)
    by reflexivity.
  split; [exact Hv|]. split; [exact HR|].
  destruct (Concatenate_without_members sample_env ∅ c "all.mov" Hv)
    as (Hp & Ho & Hm & _).
  specialize (Hm HR).
  destruct (ConcatenateWithStreams sample_env ∅ c "all.mov") as [fs' res].
  simpl in *. subst res. f_equal.
  apply map_eq. intros p. rewrite lookup_empty.
  destruct (decide (p = concatListCache c)) as [->|Hne]; [exact Hm|].
  now rewrite (Ho p Hne).
Defined.

(** ** Render *)

(** The command of a Video is never empty, so RenderWithStreams never
    panics on [line[0]]: it runs exactly the compiled command, leaves the
    files as ffmpeg left them, and fails exactly when the process does. *)
Theorem RenderWithStreams_runs_command (FormatSeconds : Z -> string)
  env (fs : FS) v output :
  RenderWithStreams FormatSeconds env fs v output
  = (fst (Run env (CommandLine FormatSeconds v output) fs),
     match snd (Run env (CommandLine FormatSeconds v output) fs) with
     | Some e => Err ("cinema.Video.Render: ffmpeg failed: " +:+ e)
     | None => Ok tt
     end) /\
  (forall msg,
     snd (Render FormatSeconds env fs v output) <> Panic msg) /\
  hd_error (CommandLine FormatSeconds v output) = Some "ffmpeg" /\
  last (CommandLine FormatSeconds v output) = Some output.
Proof.
  assert (E : RenderWithStreams FormatSeconds env fs v output
    = (fst (Run env (CommandLine FormatSeconds v output) fs),
       match snd (Run env (CommandLine FormatSeconds v output) fs) with
       | Some e => Err ("cinema.Video.Render: ffmpeg failed: " +:+ e)
       | None => Ok tt
       end)).
  { unfold RenderWithStreams.
    change (CommandLine FormatSeconds v output)
      with ("ffmpeg" :: tl (CommandLine FormatSeconds v output)).
    cbv iota beta.
    destruct (Run env _ fs) as [fs' [e|]]; reflexivity. }
  split; [exact E|]. split; [|split].
  - intros msg. unfold Render. rewrite E. simpl.
    destruct (snd (Run env _ fs)); discriminate.
  - reflexivity.
  - unfold CommandLine. now rewrite last_snoc.
Qed.

(** ** Dimensions *)

Lemma after_edits_app v es es' :
  after_edits v (es ++ es') = after_edits (after_edits v es) es'.
Proof. unfold after_edits. apply fold_left_app. Qed.

Lemma after_edits_no_resize es : forall v,
  Forall (fun e => resizes e = false) es ->
  width (after_edits v es) = width v /\
  height (after_edits v es) = height v.
Proof.
  unfold after_edits.
  induction es as [|e es IH]; intros v H; [auto|].
  inversion H as [|? ? He Hes]; subst. simpl.
  destruct (IH (apply_edit v e) Hes) as [-> ->].
  destruct e; try discriminate; simpl; auto.
  all: unfold Trim; destruct (_ <=? _); auto.
Qed.

(** Width and Height report the arguments of the most recent SetSize or
    Crop, whatever other calls came before or after it; without any such
    call they stay as loaded. *)
Theorem last_resize_decides v (es es' : list edit) :
  Forall (fun e => resizes e = false) es' ->
  (forall w h,
     width (after_edits v (es ++ ESetSize w h :: es')) = w /\
     height (after_edits v (es ++ ESetSize w h :: es')) = h) /\
  (forall x y w h,
     width (after_edits v (es ++ ECrop x y w h :: es')) = w /\
     height (after_edits v (es ++ ECrop x y w h :: es')) = h) /\
  width (after_edits v es') = width v /\
  height (after_edits v es') = height v.
Proof.
  intros H. split; [|split].
  - intros w h. rewrite after_edits_app.
    change (after_edits (after_edits v es) (ESetSize w h :: es'))
      with (after_edits (SetSize (after_edits v es) w h) es').
    exact (after_edits_no_resize es' (SetSize (after_edits v es) w h) H).
  - intros x y w h. rewrite after_edits_app.
    change (after_edits (after_edits v es) (ECrop x y w h :: es'))
      with (after_edits (Crop (after_edits v es) x y w h) es').
    exact (after_edits_no_resize es' (Crop (after_edits v es) x y w h) H).
  - apply (after_edits_no_resize es' v H).
Qed.

Lemma last_resize_decides_witness :
  Forall (fun e => resizes e = false) [ESetFPS 48; ESetBitrate 200000] /\
  width (after_edits sample_video
           ([ESetSize 400 300; ECrop 0 0 200 200] ++
            ESetSize 400 400 :: [ESetFPS 48; ESetBitrate 200000])) = 400 /\
  height (after_edits sample_video
            ([ESetSize 400 300; ECrop 0 0 200 200] ++
             ESetSize 400 400 :: [ESetFPS 48; ESetBitrate 200000])) = 400.
Proof.
  assert (H : Forall (fun e => resizes e = false)
                     [ESetFPS 48; ESetBitrate 200000])
    by (repeat constructor).
  split; [exact H|].
  destruct (last_resize_decides sample_video
              [ESetSize 400 300; ECrop 0 0 200 200] _ H) as (H1 & _).
  exact (H1 400 400).
Defined.

(** ** Paths handed to ffmpeg *)

Lemma Clean_cleanOut rooted l :
  cleanShape rooted l ->
  path_filepath.Clean (path_filepath.cleanOut rooted l)
  = path_filepath.cleanOut rooted l.
Proof.
  intros Hs.
  destruct (cleanOut_head rooted l Hs) as (c & t & Hc & Hr).
  rewrite Clean_nonempty by (rewrite Hc; discriminate).
  assert (Hroot : path_filepath.isRooted (path_filepath.cleanOut rooted l)
                  = rooted) by (rewrite Hc; exact Hr).
  rewrite Hroot.
  rewrite <- (app_nil_r (path_filepath.split _)).
  rewrite (cleanElems_split_cleanOut rooted l [] Hs). simpl.
  now rewrite rev_involutive.
Qed.

Lemma Clean_idem p :
  path_filepath.Clean (path_filepath.Clean p) = path_filepath.Clean p.
Proof.
  destruct (Clean_shape p) as (l & -> & Hs). now apply Clean_cleanOut.
Qed.

(** The manifest path of a Clip built by NewClip and the output path of
    its command are lexically clean (cleaning them again changes nothing)
    and never empty, whatever the member paths and the output name look
    like. *)
Theorem Clip_paths_clean env videoPath c output :
  NewClip env videoPath = Ok c ->
  path_filepath.Clean (concatListCache c) = concatListCache c /\
  concatListCache c <> "" /\
  exists line out,
    ClipM.CommandLine c output = Ok line /\
    last line = Some out /\
    path_filepath.Clean out = out /\ out <> "".
Proof.
  intros HN.
  destruct (NewClip_Ok _ _ _ HN) as (first & rest & -> & Hv & Hm).
  assert (HJ : forall n,
    path_filepath.Join [path_filepath.Dir first; n]
    = path_filepath.Clean
        (strings.Join [path_filepath.Dir first; n] "/")).
  { intros n. unfold path_filepath.Join, path_filepath.Dir.
    destruct (Clean_shape (path_filepath.throughLastSeparator first))
      as (l & -> & Hs).
    now rewrite (cleanOut_nonempty _ l Hs). }
  assert (HC : forall p, path_filepath.Clean p <> "").
  { intros p. destruct (Clean_shape p) as (l & -> & Hs).
    apply String.eqb_neq. now apply cleanOut_nonempty. }
  rewrite Hm, HJ. split; [apply Clean_idem|]. split; [apply HC|].
  unfold ClipM.CommandLine. rewrite Hv.
  eexists. eexists. split; [reflexivity|]. split; [reflexivity|].
  rewrite HJ. split; [apply Clean_idem|apply HC].
Qed.

Lemma Clip_paths_clean_witness :
  NewClip sample_env ["./clips//a.mov"]
  = Ok {| videosPath := ["./clips//a.mov"];
          concatListCache := "clips/concat.txt" |} /\
  path_filepath.Clean "clips/concat.txt" = "clips/concat.txt".
Proof.
  assert (HN : NewClip sample_env ["./clips//a.mov"]
               = Ok {| videosPath := ["./clips//a.mov"];
                       concatListCache := "clips/concat.txt" |})
    by reflexivity.
  split; [exact HN|].
  exact (proj1 (Clip_paths_clean sample_env _ _ "all.mov" HN)).
Defined.
